(** * SPbAU speech recognition, task 04: the data pipeline of [task04.ipynb]

    A shallow embedding of the notebook's data-processing cells
    ([legal_labels], [unzip2], [SoundDataset], [RandomChop], [Specgram])
    and the properties of the corpus indexer, the label encoder, the
    fixed-length normalisation and the spectrogram shape.

    Python values are modelled as follows: [str] as [string], [int] as [Z]
    (or [nat] for lengths and offsets that are never negative), [list] as
    [list], [set] as [gset], [float] as IEEE binary64 through [spec_float],
    and a raised exception as the [Err] branch of [result]. *)

From Stdlib Require Import ZArith Ascii String SpecFloat.
From stdpp Require Import base decidable option numbers list sorting strings gmap.

Local Open Scope Z_scope.

(** ** Exceptions *)

Inductive PyError : Type :=
  | IndexError
  | ValueError
  | ZeroDivisionError
  | OverflowError
  | FileNotFoundError.

Inductive result (A : Type) : Type :=
  | OK (a : A)
  | Err (e : PyError).
Arguments OK {A} a.
Arguments Err {A} e.

#[global] Instance PyError_eq_dec : EqDecision PyError.
Proof. solve_decision. Defined.

#[global] Instance result_ret : MRet result := λ A a, OK a.
#[global] Instance result_bind : MBind result := λ A B f m,
  match m with
  | OK a => f a
  | Err e => Err e
  end.
#[global] Instance result_fmap : FMap result := λ A B f m,
  match m with
  | OK a => OK (f a)
  | Err e => Err e
  end.

(** A comprehension or a [for] loop whose body may raise: the first
    exception aborts the whole traversal. *)
Fixpoint traverse {A B} (f : A → result B) (l : list A) : result (list B) :=
  match l with
  | [] => OK []
  | x :: l' => y ← f x; ys ← traverse f l'; mret (y :: ys)
  end.

(** ** Python primitives used by the notebook *)

Module Py.

(** [l[idx]] on a list or along the first axis of an array: a negative
    index counts from the end, anything outside raises [IndexError]. *)
Definition getitem {A} (l : list A) (idx : Z) : result A :=
  let n := Z.of_nat (length l) in
  let i := if idx <? 0 then idx + n else idx in
  if (0 <=? i) && (i <? n) then
    match l !! Z.to_nat i with
    | Some x => OK x
    | None => Err IndexError
    end
  else Err IndexError.

(** [s.split(sep)] for a one-character separator: [k] occurrences of
    the separator give [k + 1] segments, empty ones included. *)
Fixpoint split (sep : ascii) (s : string) : list string :=
  match s with
  | EmptyString => [EmptyString]
  | String c s' =>
      if Ascii.eqb c sep then EmptyString :: split sep s'
      else match split sep s' with
           | seg :: rest => String c seg :: rest
           | [] => [String c EmptyString]
           end
  end.

(** [sep in s] *)
Fixpoint contains (sep : ascii) (s : string) : bool :=
  match s with
  | EmptyString => false
  | String c s' => Ascii.eqb c sep || contains sep s'
  end.

(** [s.endswith(suffix)] *)
Definition endswith (s suffix : string) : bool :=
  let n := String.length s in
  let m := String.length suffix in
  (m <=? n)%nat && String.eqb (String.substring (n - m) m s) suffix.

(** [samples[start : stop]] for [0 <= start <= stop] *)
Definition slice {A} (l : list A) (start stop : nat) : list A :=
  take (stop - start) (drop start l).

(** [np.pad(a, pad_width=(before, 0), mode='constant', constant_values=(0, 0))] *)
Definition pad_left (a : list Z) (before : nat) : list Z :=
  replicate before 0 ++ a.

End Py.

Definition newline : ascii := Ascii.ascii_of_nat 10.
Definition slash : ascii := "/"%char.

(** ** The label vocabulary *)

Definition legal_labels : list string :=
  String.words "yes no up down left right on off stop go silence unknown".

Definition background_noise : string := "_background_noise_".

(** ** [pd.get_dummies] followed by [np.array(..., dtype=np.float32)]

    pandas derives the indicator columns from the data: one column per
    distinct value, the columns sorted in ascending order.  Row [i] holds
    [1.0] in the column of [values[i]] and [0.0] elsewhere; the two floats
    are written [1] and [0]. *)

Definition dummies_columns (values : list string) : list string :=
  merge_sort String.le (remove_dups values).

Definition indicator (v c : string) : Z :=
  if decide (c = v) then 1 else 0.

Definition dummies_row (columns : list string) (v : string) : list Z :=
  indicator v <$> columns.

Definition get_dummies (values : list string) : list (list Z) :=
  dummies_row (dummies_columns values) <$> values.

(** ** The label encoder *)

(** The body of the loop of [SoundDataset._transform_labels]. *)
Definition canonical_label (label : string) : string :=
  if decide (label = background_noise) then "silence"
  else if negb (bool_decide (label ∈ legal_labels)) then "unknown"
  else label.

(** [nlabels] after the loop: one [append] per label, in order. *)
Definition nlabels_of (labels : list string) : list string :=
  foldl (λ nlabels label, nlabels ++ [canonical_label label]) [] labels.

Definition _transform_labels (labels : list string) : list (list Z) :=
  get_dummies (nlabels_of labels).

(** ** The directory tree and the files read from it *)

(** One file at depth two under the root, [root/<folder>/<fname>].
    [audio] is what [wavfile.read] returns for it, [(sample_rate,
    samples)], or [None] when the file does not parse as a WAV file. *)
Record DirEntry : Type := {
  folder : string;
  fname : string;
  audio : option (Z * list Z)
}.

(** A directory snapshot: the entries of [root/*/*] in the order in which
    the file system lists them. *)
Definition Directory : Type := list DirEntry.

(** [directory.glob(f'*/*.{ext}')] *)
Definition glob (directory : Directory) (ext : string) : list DirEntry :=
  filter (λ p, Is_true (Py.endswith (fname p) (String "." ext))) directory.

(** [wavfile.read(directory/label/sound)] *)
Definition wavfile_read (directory : Directory) (label sound : string)
  : result (Z * list Z) :=
  match list_find (λ p, folder p = label ∧ fname p = sound) directory with
  | Some (_, p) =>
      match audio p with
      | Some wav => OK wav
      | None => Err ValueError
      end
  | None => Err FileNotFoundError
  end.

(** ** [unzip2] *)

(** [zip] applied to the unpacked [values], a sequence of pairs: nothing for the empty
    sequence, otherwise the tuple of first components and the tuple of
    second components. *)
Definition zip_star {A} (values : list (A * A)) : list (list A) :=
  match values with
  | [] => []
  | _ => [values.*1; values.*2]
  end.

(** [a, b = it]: unpacking into exactly two names. *)
Definition unpack2 {A} (it : list A) : result (A * A) :=
  match it with
  | [a; b] => OK (a, b)
  | _ => Err ValueError
  end.

Definition unzip2 {A} (values : list (A * A)) : result (list A * list A) :=
  '(a, b) ← unpack2 (zip_star values);
  mret (a, b).

(** ** [SoundDataset] *)

(** The dictionary built by [__getitem__]. *)
Record Sample : Type := {
  sample_rate : Z;
  samples : list Z;
  label : list Z
}.

(** What [__getitem__] returns: the dictionary itself when no transform
    was given, otherwise whatever the transform makes of it. *)
Inductive Item (Out : Type) : Type :=
  | Raw (sample : Sample)
  | Transformed (out : Out).
Arguments Raw {Out} sample.
Arguments Transformed {Out} out.

Section SoundDataset.

(** The state of the global generator behind [np.random] and the type
    of a transformed sample.  A transform may draw random numbers and
    may raise. *)
Context {RandomState Out : Type}.

Definition Transform : Type :=
  Sample → RandomState → result (Out * RandomState).

Record SoundDataset : Type := {
  directory : Directory;
  transform : option Transform;
  _subset : option (gset string);
  _labels : list string;
  _sounds : list string;
  _transformed_labels : list (list Z)
}.

(** [file] is the text returned by [file.read_text()]. *)
Definition _load_subset (file : string) : result (gset string) :=
  names ← traverse (λ path, Py.getitem (Py.split slash path) 1)
                   (Py.split newline file);
  mret (list_to_set names).

Definition _is_needed (subset : option (gset string)) (name : string) : bool :=
  match subset with
  | Some s => bool_decide (name ∈ s)
  | None => true
  end.

Definition _list_of_wavs (subset : option (gset string))
    (directory : Directory) (ext : string)
  : result (list string * list string) :=
  unzip2 ((λ path, (folder path, fname path)) <$>
          filter (λ path, Is_true (_is_needed subset (fname path)))
                 (glob directory ext)).

(** [SoundDataset(directory, subset_path, transform)].  [subset_path]
    is given as the text of the file it names. *)
Definition __init__ (directory : Directory) (subset_path : option string)
    (transform : option Transform) : result SoundDataset :=
  subset ← match subset_path with
           | Some file => Some <$> _load_subset file
           | None => OK None
           end;
  '(labels, sounds) ← _list_of_wavs subset directory "wav";
  mret {| directory := directory;
          transform := transform;
          _subset := subset;
          _labels := labels;
          _sounds := sounds;
          _transformed_labels := _transform_labels labels |}.

Definition __len__ (self : SoundDataset) : Z :=
  Z.of_nat (length (_labels self)).

Definition __getitem__ (self : SoundDataset) (idx : Z) (st : RandomState)
  : result (Item Out * RandomState) :=
  label ← Py.getitem (_labels self) idx;
  sound ← Py.getitem (_sounds self) idx;
  '(sample_rate, samples) ← wavfile_read (directory self) label sound;
  label ← Py.getitem (_transformed_labels self) idx;
  let sample := {| sample_rate := sample_rate;
                   samples := samples;
                   label := label |} in
  match transform self with
  | Some t => '(out, st') ← t sample st; mret (Transformed out, st')
  | None => mret (Raw sample, st)
  end.

End SoundDataset.
Arguments SoundDataset : clear implicits.
Arguments Transform : clear implicits.

(** ** Python floats *)

Module Float64.

Definition prec : Z := 53.
Definition emax : Z := 1024.

(** [float(n)] for an [int]: the nearest double, ties to even. *)
Definition of_int (n : Z) : result spec_float :=
  match binary_normalize prec emax n 0 false with
  | S754_infinity _ => Err OverflowError
  | f => OK f
  end.

(** [a / b] on two [int]s: the correctly rounded quotient. *)
Definition int_truediv (a b : Z) : result spec_float :=
  let negate := xorb (a <? 0) (b <? 0) in
  if b =? 0 then Err ZeroDivisionError
  else if a =? 0 then OK (S754_zero negate)
  else
    let '(q, e, l) := SFdiv_core_binary prec emax (Z.abs a) 0 (Z.abs b) 0 in
    match binary_round_aux prec emax negate q e l with
    | S754_infinity _ => Err OverflowError
    | f => OK f
    end.

(** [x * y] and [x / y] on two floats. *)
Definition mul (x y : spec_float) : spec_float := SFmul prec emax x y.
Definition truediv (x y : spec_float) : result spec_float :=
  match y with
  | S754_zero _ => Err ZeroDivisionError
  | _ => OK (SFdiv prec emax x y)
  end.

(** [int(x)]: truncation toward zero. *)
Definition to_int (x : spec_float) : result Z :=
  match x with
  | S754_nan => Err ValueError
  | S754_infinity _ => Err OverflowError
  | S754_zero _ => OK 0
  | S754_finite s m e =>
      OK (cond_Zopp s (match e with
                       | Zneg p => Z.shiftr (Zpos m) (Zpos p)
                       | _ => Z.shiftl (Zpos m) e
                       end))
  end.

(** [round(x)] with one argument: the nearest [int], ties to even. *)
Definition round (x : spec_float) : result Z :=
  match x with
  | S754_nan => Err ValueError
  | S754_infinity _ => Err OverflowError
  | S754_zero _ => OK 0
  | S754_finite s m e =>
      OK (cond_Zopp s (match e with
                       | Zneg p =>
                           let q := Z.shiftr (Zpos m) (Zpos p) in
                           let r := Zpos m - Z.shiftl q (Zpos p) in
                           match 2 * r ?= Z.shiftl 1 (Zpos p) with
                           | Lt => q
                           | Gt => q + 1
                           | Eq => if Z.even q then q else q + 1
                           end
                       | _ => Z.shiftl (Zpos m) e
                       end))
  end.

End Float64.

(** ** The transform chain *)

Section RandomChop.

(** The generator behind [np.random]: [random_raw] advances the state
    and returns the raw draw from which [randint] derives its value. *)
Context {RandomState : Type} (random_raw : RandomState → nat * RandomState).

(** [np.random.randint(low, high)]: a value of [[low, high)]; an empty
    range raises. *)
Definition randint (low high : nat) (st : RandomState)
  : result (nat * RandomState) :=
  if decide (low < high)%nat then
    let '(x, st') := random_raw st in
    OK ((low + x mod (high - low))%nat, st')
  else Err ValueError.

(** [RandomChop._pad_audio] *)
Definition _pad_audio (self_length : nat) (samples : list Z) : list Z :=
  if decide (self_length ≤ length samples)%nat then samples
  else Py.pad_left samples (self_length - length samples).

(** [RandomChop._chop_audio] *)
Definition _chop_audio (self_length : nat) (samples : list Z)
    (st : RandomState) : result (list Z * RandomState) :=
  '(start, st') ← randint 0 (length samples - self_length) st;
  mret (Py.slice samples start (start + self_length), st').

(** [RandomChop.__call__] *)
Definition RandomChop_call (self_length : nat) (sample : Sample)
    (st : RandomState) : result (Sample * RandomState) :=
  let samples := _pad_audio self_length (samples sample) in
  '(samples, st') ←
    (if decide (self_length < length samples)%nat
     then _chop_audio self_length samples st
     else mret (samples, st));
  mret ({| sample_rate := sample_rate sample;
           samples := samples;
           label := label sample |}, st').

End RandomChop.

(** The output of [Specgram]: the spectrogram is carried by its shape
    alone, its values are not modelled. *)
Record SpecSample : Type := {
  spec_shape : list Z;
  spec_label : list Z
}.

(** The number of samples [Specgram.__call__] asks [signal.resample]
    for: [int(self.sample_rate / sample_rate * samples.shape[0])]. *)
Definition Specgram_num (self_sample_rate sample_rate n : Z) : result Z :=
  ratio ← Float64.int_truediv self_sample_rate sample_rate;
  len ← Float64.of_int n;
  Float64.to_int (Float64.mul ratio len).

(** [signal.resample(x, num)] returns [num] samples. *)
Definition resample_len (num : Z) : result Z :=
  if num <? 0 then Err ValueError else OK num.

(** The shape of [Sxx] returned by [signal.spectrogram] for a real signal
    of [n] samples, with the default [nfft] and one-sided output:
    [nperseg] is capped at the input length, [noverlap] must stay below
    it, and the result has [nperseg // 2 + 1] frequency rows and
    [(n - noverlap) // (nperseg - noverlap)] segment columns.  An empty
    signal is returned as an empty one-dimensional array. *)
Definition spectrogram_shape (n nperseg noverlap : Z) : result (list Z) :=
  if n =? 0 then OK [0]
  else
    let nperseg := if n <? nperseg then n else nperseg in
    if nperseg <? 1 then Err ValueError
    else if nperseg <=? noverlap then Err ValueError
    else OK [nperseg / 2 + 1; (n - noverlap) / (nperseg - noverlap)].

(** [int(round(ms * sample_rate / 1e3))] *)
Definition ms_to_samples (ms sample_rate : Z) : result Z :=
  x ← Float64.of_int (ms * sample_rate);
  thousand ← Float64.of_int 1000;
  y ← Float64.truediv x thousand;
  Float64.round y.

(** The shape of the third component of [Specgram._log_specgram]:
    [np.log(spec.T.astype(np.float32) + eps)] has the shape of [spec.T]. *)
Definition _log_specgram_shape (audio_len sample_rate window_size step_size : Z)
  : result (list Z) :=
  nperseg ← ms_to_samples window_size sample_rate;
  noverlap ← ms_to_samples step_size sample_rate;
  spec ← spectrogram_shape audio_len nperseg noverlap;
  mret (reverse spec).

(** [Specgram.__call__] *)
Definition Specgram_call (self_sample_rate : Z) (sample : Sample)
  : result SpecSample :=
  num ← Specgram_num self_sample_rate (sample_rate sample)
                     (Z.of_nat (length (samples sample)));
  resampled ← resample_len num;
  specgram ← _log_specgram_shape resampled self_sample_rate 20 10;
  d0 ← Py.getitem specgram 0;
  d1 ← Py.getitem specgram 1;
  mret {| spec_shape := [1; d0; d1]; spec_label := label sample |}.

(** [ToTensor.__call__]: [torch.from_numpy] keeps shape and values. *)
Definition ToTensor_call (sample : SpecSample) : SpecSample :=
  {| spec_shape := spec_shape sample; spec_label := spec_label sample |}.

(** [transforms.Compose([RandomChop(length), Specgram(rate), ToTensor()])];
    the notebook's [data_transform] takes the defaults 16000 and 8000. *)
Definition compose_transform {RandomState : Type}
    (random_raw : RandomState → nat * RandomState)
    (chop_length : nat) (spec_rate : Z) : Transform RandomState SpecSample :=
  λ sample st,
    '(sample, st') ← RandomChop_call random_raw chop_length sample st;
    sample ← Specgram_call spec_rate sample;
    mret (ToTensor_call sample, st').

Definition data_transform {RandomState : Type}
    (random_raw : RandomState → nat * RandomState)
  : Transform RandomState SpecSample :=
  compose_transform random_raw (Z.to_nat 16000) 8000.

(** ** Reference definitions taken from the specification *)

(** The three-rule mapping as the specification words it: the vocabulary
    test leaves out [silence] and [unknown]. *)
Definition spec_canonical_label (raw : string) : string :=
  if decide (raw = background_noise) then "silence"
  else if bool_decide (raw ∈ filter (λ c, c ≠ "silence" ∧ c ≠ "unknown") legal_labels)
       then raw
  else "unknown".

(** One-hot vectors over the vocabulary in its declared order. *)
Definition spec_transform_labels (labels : list string) : list (list Z) :=
  dummies_row legal_labels <$> (canonical_label <$> labels).

(** The vocabulary in ascending order. *)
Definition sorted_labels : list string :=
  ["down"; "go"; "left"; "no"; "off"; "on"; "right"; "silence"; "stop";
   "unknown"; "up"; "yes"].

(** Exactly one entry is [1], the others are [0], and the entries sum
    to [1]. *)
Definition one_hot (row : list Z) : Prop :=
  Forall (λ x, x = 0 ∨ x = 1) row ∧
  length (filter (λ x, x = 1) row) = 1%nat ∧
  foldr Z.add 0 row = 1.

(** [n] is an integer nearest to the rational [num / den], whichever way
    ties are broken: what [round(num / den)] may return. *)
Definition nearest_integer (num den n : Z) : Prop :=
  2 * Z.abs (n * den - num) ≤ Z.abs den.

(** [x] truncated toward zero is [k], for a double [x]. *)
Definition truncation_of (x : spec_float) (k : Z) : Prop :=
  match x with
  | S754_zero _ => k = 0
  | S754_finite s m e =>
      k = cond_Zopp s (Z.abs k) ∧
      Z.abs k * 2 ^ Z.max 0 (- e) ≤ Zpos m * 2 ^ Z.max 0 e
        < (Z.abs k + 1) * 2 ^ Z.max 0 (- e)
  | _ => False
  end.

(** [f] holds on [lo], [lo + 1], ..., [lo + n - 1]. *)
Fixpoint forallb_from (f : Z → bool) (lo : Z) (n : nat) : bool :=
  match n with
  | O => true
  | S n' => f lo && forallb_from f (lo + 1) n'
  end.

(** The shape Stage B returns for [n] samples recorded at [rate]. *)
Definition Specgram_shape (self_sample_rate rate : Z) (n : nat)
  : result (list Z) :=
  spec_shape <$> Specgram_call self_sample_rate
                   {| sample_rate := rate;
                      samples := replicate n 0;
                      label := [] |}.

(** The spectrogram shape produced by the whole chain for a file of
    [len] samples recorded at [rate]. *)
Definition pipeline_shape {RandomState : Type}
    (random_raw : RandomState → nat * RandomState)
    (chop_length : nat) (spec_rate : Z) (rate : Z) (audio : list Z)
    (st : RandomState) : result (list Z) :=
  '(out, _) ← compose_transform random_raw chop_length spec_rate
                {| sample_rate := rate; samples := audio; label := [] |} st;
  mret (spec_shape out).

(** The entries a view retains, before they are split into the label
    and the file-name sequences. *)
Definition retained (subset : option (gset string)) (directory : Directory)
  : list DirEntry :=
  filter (λ path, Is_true (_is_needed subset (fname path)))
         (glob directory "wav").

(** ** [evaluate]: decoding a label vector *)

(** The scan behind [np.argmax]: [best] is the largest entry seen so far
    and [best_i] its index; a later entry wins only if strictly larger. *)
Fixpoint argmax_from (best : Z) (best_i i : nat) (row : list Z) : nat :=
  match row with
  | [] => best_i
  | x :: row' =>
      if best <? x then argmax_from x i (S i) row'
      else argmax_from best best_i (S i) row'
  end.

(** [np.argmax(target, axis=1)] on one row: the index of the first
    maximal entry; an empty row raises. *)
Definition np_argmax (row : list Z) : result nat :=
  match row with
  | [] => Err ValueError
  | x :: row' => OK (argmax_from x 0 1 row')
  end.

(** ** The network, by the shapes of its tensors

    A batch is carried by its shape [(N, C, H, W)]; [None] stands for the
    exception a layer raises when it cannot take its input. *)

Module Torch.

Definition Shape4 : Type := Z * Z * Z * Z.

(** [nn.Conv2d(cin, cout, kernel_size=k, padding=p)], stride 1: the
    input channels must match and the padded input must hold the
    kernel. *)
Definition conv2d (cin cout k p : Z) (x : Shape4) : option Shape4 :=
  let '(n, c, h, w) := x in
  if (c =? cin) && (k <=? h + 2 * p) && (k <=? w + 2 * p)
  then Some (n, cout, h + 2 * p - k + 1, w + 2 * p - k + 1)
  else None.

(** [nn.BatchNorm2d(features)]: the channels must match, and in training
    mode a channel must hold more than one value. *)
Definition batch_norm2d (training : bool) (features : Z) (x : Shape4)
  : option Shape4 :=
  let '(n, c, h, w) := x in
  if negb (c =? features) then None
  else if training && (n * h * w =? 1) then None
  else Some x.

(** [nn.MaxPool2d(pool, pool)] and [nn.AvgPool2d(pool, pool)]: kernel and
    stride [pool], no padding, sizes rounded down; an output without
    rows or columns is refused. *)
Definition pool2d (pool : Z) (x : Shape4) : option Shape4 :=
  let '(n, c, h, w) := x in
  let h' := (h - pool) / pool + 1 in
  let w' := (w - pool) / pool + 1 in
  if (1 <=? h') && (1 <=? w') then Some (n, c, h', w') else None.

(** [x.view(x.size(0), -1)]: the remaining size cannot be inferred for an
    empty batch. *)
Definition flatten (x : Shape4) : option (Z * Z) :=
  let '(n, c, h, w) := x in
  if n =? 0 then None else Some (n, c * h * w).

(** [nn.Linear(in_features, out_features)] on a matrix. *)
Definition linear (in_features out_features : Z) (x : Z * Z) : option (Z * Z) :=
  let '(n, f) := x in
  if f =? in_features then Some (n, out_features) else None.

End Torch.

(** [ConvRes.forward]; [nn.PReLU] keeps the shape. *)
Definition ConvRes_forward (training : bool) (insize outsize : Z)
    (x : Torch.Shape4) : option Torch.Shape4 :=
  x ← Torch.batch_norm2d training insize x;
  Torch.conv2d insize outsize 2 2 x.

(** [ConvCNN.forward]; [nn.LeakyReLU] keeps the shape. *)
Definition ConvCNN_forward (training : bool)
    (insize outsize kernel_size padding pool : Z) (avg : bool)
    (x : Torch.Shape4) : option Torch.Shape4 :=
  x ← Torch.conv2d insize outsize kernel_size padding x;
  x ← Torch.batch_norm2d training outsize x;
  x ← Torch.pool2d pool x;
  if avg then Torch.pool2d pool x else Some x.

(** [Net.features]: [cnn1], [dropout] (which keeps the shape), [cnn2],
    [cnn3], [res1]. *)
Definition Net_features (training : bool) (x : Torch.Shape4)
  : option Torch.Shape4 :=
  x ← ConvCNN_forward training 1 32 7 2 4 false x;
  x ← ConvCNN_forward training 32 32 5 2 2 true x;
  x ← ConvCNN_forward training 32 32 5 2 2 true x;
  ConvRes_forward training 32 64 x.

(** [Net.forward] *)
Definition Net_forward (training : bool) (x : Torch.Shape4) : option (Z * Z) :=
  x ← Net_features training x;
  x ← Torch.flatten x;
  Torch.linear 1024 12 x.

(** ** [train]: the loss history

    The optimisation step of each batch is outside the model: [batches]
    lists the values [loss.data[0]] it produces, one per batch of the
    loader, and [mean] stands for [np.mean]. *)

Section Train.

Context {Loss : Type} (mean : list Loss → Loss).

(** The body of the loop from [batch_idx] on. *)
Fixpoint train_loop (log_steps last_batch batch_idx : Z) (batches : list Loss)
    (loss_history loss_batch_history : list Loss) : list Loss :=
  match batches with
  | [] => loss_history
  | loss :: batches' =>
      let loss_batch_history := loss_batch_history ++ [loss] in
      if (batch_idx mod log_steps =? 0) || (batch_idx =? last_batch)
      then train_loop log_steps last_batch (batch_idx + 1) batches'
             (loss_history ++ [mean loss_batch_history]) []
      else train_loop log_steps last_batch (batch_idx + 1) batches'
             loss_history loss_batch_history
  end.

(** [train(epoch, dataloader, log_steps)]: the returned [loss_history].
    The first [batch_idx % log_steps] raises when [log_steps] is zero. *)
Definition train (log_steps : Z) (batches : list Loss) : result (list Loss) :=
  match batches with
  | [] => OK []
  | _ =>
      if log_steps =? 0 then Err ZeroDivisionError
      else OK (train_loop log_steps (Z.of_nat (length batches)) 1 batches [] [])
  end.

End Train.

(** ** Helpers for stating properties *)

(** [sep.join(segments)] *)
Fixpoint join (sep : ascii) (segments : list string) : string :=
  match segments with
  | [] => ""
  | [s] => s
  | s :: rest => s +:+ String sep (join sep rest)
  end.

(** A membership file: one line [<label>/<filename>] per entry. *)
Definition subset_file (entries : list (string * string)) : string :=
  join newline ((λ e, e.1 +:+ String slash e.2) <$> entries).

(** The paths of a directory, as [(folder, file name)] pairs. *)
Definition paths (dir : Directory) : list (string * string) :=
  (λ p, (folder p, fname p)) <$> dir.

(** The entries of a view, as [(label, file name)] pairs. *)
Definition entries {RandomState Out : Type}
    (self : SoundDataset RandomState Out) : list (string * string) :=
  zip (_labels self) (_sounds self).

(** ** Scenarios *)

(** Three files under [yes], one under the noise folder, one under
    [banana]. *)
Definition scenario1_labels : list string :=
  ["yes"; "yes"; "yes"; "_background_noise_"; "banana"].

(** The directory of the first scenario. *)
Definition scenario1_directory : Directory :=
  [ {| folder := "yes"; fname := "a.wav"; audio := Some (16000, [3; -1; 4]) |};
    {| folder := "yes"; fname := "b.wav"; audio := Some (16000, [1; 5]) |};
    {| folder := "yes"; fname := "c.wav"; audio := Some (16000, [9; 2; 6]) |};
    {| folder := "_background_noise_"; fname := "hum.wav";
       audio := Some (16000, [0; 0; 1; 0]) |};
    {| folder := "banana"; fname := "d.wav"; audio := Some (8000, [7]) |} ].

(** Two files under [yes]; the validation list names the first. *)
Definition scenario3_directory : Directory :=
  [ {| folder := "yes"; fname := "abc123.wav"; audio := Some (16000, [3; -1; 4]) |};
    {| folder := "yes"; fname := "def456.wav"; audio := Some (16000, [1; 5]) |} ].

Definition scenario3_subset : string := "yes/abc123.wav".

(** A validation list naming both files, and one ending in a newline. *)
Definition scenario3_both : string :=
  "yes/abc123.wav" +:+ String newline "yes/def456.wav".

Definition scenario3_trailing_newline : string :=
  "yes/abc123.wav" +:+ String newline "".

(** A generator that counts: the raw draws are 0, 1, 2, ... *)
Definition counting_raw (st : nat) : nat * nat := (st, S st).

(** * Properties *)

(** Closed decidable goals are settled by evaluation. *)
Ltac by_compute := apply (bool_decide_unpack _); vm_compute; exact I.

(** ** The [result] monad and [Py.getitem] *)

Lemma bind_OK {A B} (f : A → result B) (m : result A) (b : B) :
  m ≫= f = OK b ↔ ∃ a, m = OK a ∧ f a = OK b.
Proof.
  destruct m as [a|e]; simpl.
  - split; [eauto | by intros (? & [= ->] & ?)].
  - split; [done | by intros (? & ? & ?)].
Qed.

Lemma fmap_OK {A B} (f : A → B) (m : result A) (b : B) :
  f <$> m = OK b ↔ ∃ a, m = OK a ∧ b = f a.
Proof.
  destruct m as [a|e]; simpl.
  - split; [intros [= <-]; eauto | by intros (? & [= ->] & ->)].
  - split; [done | by intros (? & ? & ?)].
Qed.

Lemma getitem_nonneg {A} (l : list A) (idx : Z) :
  0 ≤ idx < Z.of_nat (length l) →
  Py.getitem l idx = from_option OK (Err IndexError) (l !! Z.to_nat idx).
Proof.
  intros H. unfold Py.getitem.
  destruct (Z.ltb_spec idx 0); [lia|].
  destruct (Z.leb_spec 0 idx); [|lia].
  destruct (Z.ltb_spec idx (Z.of_nat (length l))); [|lia].
  simpl. by destruct (l !! Z.to_nat idx).
Qed.

Lemma getitem_negative {A} (l : list A) (idx : Z) :
  - Z.of_nat (length l) ≤ idx < 0 →
  Py.getitem l idx = Py.getitem l (idx + Z.of_nat (length l)).
Proof.
  intros H. unfold Py.getitem.
  destruct (Z.ltb_spec idx 0); [|lia].
  destruct (Z.ltb_spec (idx + Z.of_nat (length l)) 0); [lia|].
  done.
Qed.

Lemma getitem_out_of_range {A} (l : list A) (idx : Z) :
  idx < - Z.of_nat (length l) ∨ Z.of_nat (length l) ≤ idx →
  Py.getitem l idx = Err IndexError.
Proof.
  intros H. unfold Py.getitem.
  destruct (Z.ltb_spec idx 0).
  - destruct (Z.leb_spec 0 (idx + Z.of_nat (length l))); [lia|done].
  - destruct (Z.ltb_spec idx (Z.of_nat (length l))); [lia|].
    by rewrite andb_false_r.
Qed.

Lemma getitem_OK_lookup {A} (l : list A) (idx : Z) (x : A) :
  Py.getitem l idx = OK x →
  ∃ i : nat, l !! i = Some x ∧
    (Z.of_nat i = idx ∨ Z.of_nat i = idx + Z.of_nat (length l) ∧ idx < 0).
Proof.
  unfold Py.getitem. intros H.
  destruct (Z.ltb_spec idx 0) as [Hneg|Hpos].
  - destruct (_ && _) eqn:Hb; [|done].
    apply andb_prop in Hb as [?%Z.leb_le ?%Z.ltb_lt].
    destruct (l !! _) eqn:Hl; simplify_eq.
    eexists; split; [done|]. right. lia.
  - destruct (_ && _) eqn:Hb; [|done].
    destruct (l !! _) eqn:Hl; simplify_eq.
    eexists; split; [done|]. left. lia.
Qed.

Lemma getitem_OK_elem_of {A} (l : list A) (idx : Z) (x : A) :
  Py.getitem l idx = OK x → x ∈ l.
Proof.
  intros (i & Hi & _)%getitem_OK_lookup. by eapply list_elem_of_lookup_2.
Qed.

Lemma getitem_is_OK {A} (l : list A) (idx : Z) :
  - Z.of_nat (length l) ≤ idx < Z.of_nat (length l) →
  ∃ x, Py.getitem l idx = OK x.
Proof.
  intros H. destruct (decide (idx < 0)) as [Hneg|Hpos].
  - rewrite getitem_negative by lia. rewrite getitem_nonneg by lia.
    destruct (lookup_lt_is_Some_2 l (Z.to_nat (idx + Z.of_nat (length l))))
      as [x ->]; [lia|]. by exists x.
  - rewrite getitem_nonneg by lia.
    destruct (lookup_lt_is_Some_2 l (Z.to_nat idx)) as [x ->]; [lia|].
    by exists x.
Qed.

(** ** The label encoder *)

Section LabelEncoder.

Implicit Types (labels values : list string) (raw c v : string).

Lemma nlabels_of_fmap labels :
  nlabels_of labels = canonical_label <$> labels.
Proof.
  unfold nlabels_of.
  assert (∀ acc, foldl (λ nlabels label, nlabels ++ [canonical_label label])
                       acc labels = acc ++ (canonical_label <$> labels)) as H.
  { induction labels as [|x labels IH]; intros acc; simpl.
    - by rewrite app_nil_r.
    - by rewrite IH, <- app_assoc. }
  apply H.
Qed.

Lemma canonical_label_legal raw : canonical_label raw ∈ legal_labels.
Proof.
  unfold canonical_label.
  destruct (decide (raw = background_noise));
    [by_compute|].
  destruct (bool_decide (raw ∈ legal_labels)) eqn:Hb; simpl.
  - by apply bool_decide_eq_true in Hb.
  - by_compute.
Qed.

Lemma background_noise_not_legal : background_noise ∉ legal_labels.
Proof. by apply (bool_decide_eq_false_1 _); vm_compute. Qed.

Lemma canonical_label_fixed c : c ∈ legal_labels → canonical_label c = c.
Proof.
  intros Hc. unfold canonical_label.
  destruct (decide (c = background_noise)) as [->|].
  - by destruct background_noise_not_legal.
  - by rewrite bool_decide_eq_true_2.
Qed.

(** *** The indicator columns *)

Lemma elem_of_dummies_columns values c :
  c ∈ dummies_columns values ↔ c ∈ values.
Proof.
  unfold dummies_columns.
  by rewrite merge_sort_Permutation, elem_of_remove_dups.
Qed.

Lemma NoDup_dummies_columns values : NoDup (dummies_columns values).
Proof.
  unfold dummies_columns.
  rewrite merge_sort_Permutation. apply NoDup_remove_dups.
Qed.

Lemma Sorted_dummies_columns values :
  Sorted String.le (dummies_columns values).
Proof. apply (Sorted_merge_sort String.le). Qed.

Lemma length_dummies_row columns v :
  length (dummies_row columns v) = length columns.
Proof. unfold dummies_row. by rewrite length_fmap. Qed.

Lemma dummies_row_binary columns v :
  Forall (λ x, x = 0 ∨ x = 1) (dummies_row columns v).
Proof.
  unfold dummies_row. apply Forall_fmap, Forall_forall. intros c _.
  unfold indicator; simpl. case_decide; auto.
Qed.

Lemma dummies_row_absent columns v :
  v ∉ columns → dummies_row columns v = replicate (length columns) 0.
Proof.
  induction columns as [|c columns IH]; intros Hv; [done|].
  apply not_elem_of_cons in Hv as [Hne Hv].
  unfold dummies_row in *. rewrite fmap_cons, IH by done.
  unfold indicator. rewrite decide_False by congruence. done.
Qed.

Lemma filter_ones_replicate n :
  filter (λ x, x = 1) (replicate n 0) = [].
Proof. induction n; [done|]. simpl. by rewrite filter_cons_False. Qed.

Lemma sum_replicate_zero n : foldr Z.add 0 (replicate n 0) = 0.
Proof. induction n; simpl; lia. Qed.

Lemma dummies_row_one_hot columns v :
  NoDup columns → v ∈ columns → one_hot (dummies_row columns v).
Proof.
  intros Hnd Hv. split; [apply dummies_row_binary|].
  induction columns as [|c columns IH]; [by apply elem_of_nil in Hv|].
  apply NoDup_cons in Hnd as [Hc Hnd].
  unfold dummies_row in *. rewrite fmap_cons. unfold indicator at 1 3.
  destruct (decide (c = v)) as [->|Hne].
  - fold (dummies_row columns v). rewrite dummies_row_absent by done.
    rewrite filter_cons_True by done.
    rewrite filter_ones_replicate. simpl.
    by rewrite sum_replicate_zero.
  - apply elem_of_cons in Hv as [->|Hv]; [done|].
    destruct (IH Hnd Hv) as [Hlen Hsum].
    rewrite filter_cons_False by done. simpl. split; [done|lia].
Qed.

(** Position of the [1]: the index of [v] among the columns. *)
Lemma dummies_row_lookup columns v (k : nat) c :
  columns !! k = Some c →
  dummies_row columns v !! k = Some (if decide (c = v) then 1 else 0).
Proof.
  intros Hk. unfold dummies_row. by rewrite list_lookup_fmap, Hk.
Qed.

Lemma transform_labels_lookup labels (i : nat) raw :
  labels !! i = Some raw →
  _transform_labels labels !! i =
    Some (dummies_row (dummies_columns (nlabels_of labels))
                      (canonical_label raw)).
Proof.
  intros Hi. unfold _transform_labels, get_dummies.
  assert (nlabels_of labels !! i = Some (canonical_label raw)) as Hn.
  { by rewrite nlabels_of_fmap, list_lookup_fmap, Hi. }
  by rewrite list_lookup_fmap, Hn.
Qed.

Lemma length_transform_labels labels :
  length (_transform_labels labels) = length labels.
Proof.
  unfold _transform_labels, get_dummies.
  by rewrite length_fmap, nlabels_of_fmap, length_fmap.
Qed.

Lemma transform_labels_rows_one_hot labels row :
  row ∈ _transform_labels labels → one_hot row.
Proof.
  unfold _transform_labels, get_dummies.
  intros (v & -> & Hv)%list_elem_of_fmap.
  apply dummies_row_one_hot; [apply NoDup_dummies_columns|].
  by apply elem_of_dummies_columns.
Qed.

(** When every class of the vocabulary occurs, the columns are the
    whole vocabulary in ascending order. *)
Lemma dummies_columns_full values :
  (∀ c, c ∈ values → c ∈ legal_labels) →
  (∀ c, c ∈ legal_labels → c ∈ values) →
  dummies_columns values = sorted_labels.
Proof.
  intros Hsub Hsup.
  apply (Sorted_unique String.le).
  - apply Sorted_dummies_columns.
  - by_compute.
  - apply NoDup_Permutation.
    + apply NoDup_dummies_columns.
    + by_compute.
    + intros c. rewrite elem_of_dummies_columns.
      assert (c ∈ sorted_labels ↔ c ∈ legal_labels) as ->.
      { assert (sorted_labels ≡ₚ legal_labels) as ->; [|done].
        by_compute. }
      split; auto.
Qed.

End LabelEncoder.

(** ** Construction of a dataset view *)

Section Construction.

Context {RandomState Out : Type}.
Implicit Types (self : SoundDataset RandomState Out)
  (tr : option (Transform RandomState Out))
  (subset : option (gset string)) (dir : Directory).

Lemma unzip2_nil {A} : unzip2 (@nil (A * A)) = Err ValueError.
Proof. reflexivity. Qed.

Lemma unzip2_cons {A} (v : A * A) (values : list (A * A)) :
  unzip2 (v :: values) = OK ((v :: values).*1, (v :: values).*2).
Proof. reflexivity. Qed.

Lemma unzip2_OK {A} (values : list (A * A)) a b :
  unzip2 values = OK (a, b) →
  values ≠ [] ∧ a = values.*1 ∧ b = values.*2.
Proof. destruct values; [done|]. rewrite unzip2_cons. by intros [= <- <-]. Qed.

Lemma list_of_wavs_OK subset dir labels sounds :
  _list_of_wavs subset dir "wav" = OK (labels, sounds) →
  retained subset dir ≠ [] ∧
  labels = folder <$> retained subset dir ∧
  sounds = fname <$> retained subset dir.
Proof.
  unfold _list_of_wavs. fold (retained subset dir).
  intros (Hne & -> & ->)%unzip2_OK. split_and!.
  - by intros Heq; rewrite Heq in Hne.
  - by rewrite <- list_fmap_compose.
  - by rewrite <- list_fmap_compose.
Qed.

Lemma list_of_wavs_empty subset dir :
  retained subset dir = [] →
  _list_of_wavs subset dir "wav" = Err ValueError.
Proof. unfold _list_of_wavs, retained. by intros ->. Qed.

Lemma list_of_wavs_nonempty subset dir :
  retained subset dir ≠ [] →
  _list_of_wavs subset dir "wav" =
    OK (folder <$> retained subset dir,
        fname <$> retained subset dir).
Proof.
  unfold _list_of_wavs. fold (retained subset dir).
  destruct (retained subset dir) as [|p l]; [done|]. intros _.
  rewrite fmap_cons, unzip2_cons, !fmap_cons. simpl.
  by rewrite <- !list_fmap_compose.
Qed.

(** What a successfully constructed view holds. *)
Lemma init_OK dir subset_path tr self :
  __init__ dir subset_path tr = OK self →
  retained (_subset self) dir ≠ [] ∧
  _labels self = folder <$> retained (_subset self) dir ∧
  _sounds self = fname <$> retained (_subset self) dir ∧
  _transformed_labels self = _transform_labels (_labels self) ∧
  directory self = dir ∧
  transform self = tr.
Proof.
  unfold __init__. intros (subset & _ & H)%bind_OK.
  apply bind_OK in H as ([labels sounds] & Hl & [= <-]). simpl.
  apply list_of_wavs_OK in Hl as (? & -> & ->). done.
Qed.

Lemma init_lengths dir subset_path tr self :
  __init__ dir subset_path tr = OK self →
  length (_sounds self) = length (_labels self) ∧
  length (_transformed_labels self) = length (_labels self).
Proof.
  intros (_ & Hl & Hs & Ht & _)%init_OK.
  rewrite Ht, length_transform_labels, Hl, Hs, !length_fmap. done.
Qed.

End Construction.

(** ** Claims about the label encoder *)

(** C2, as stated, fails: a folder literally named [silence] is in
    [legal_labels], so the loop keeps its name; the specification's rule
    sends it to [unknown]. *)
Lemma canonical_label_silence_folder :
  nlabels_of ["silence"] = ["silence"] ∧
  nlabels_of ["silence"] ≠ spec_canonical_label <$> ["silence"].
Proof. split; [reflexivity|]. vm_compute. discriminate. Qed.

(** C2, amended: the loop of [_transform_labels] maps each raw folder
    name by priority: the background-noise folder gives [silence];
    otherwise a name in the full twelve-name vocabulary ([silence] and
    [unknown] included) is kept; otherwise the class is [unknown]. *)
Theorem canonical_label_rules (labels : list string) (i : nat) (raw : string) :
  labels !! i = Some raw →
  ∃ c, nlabels_of labels !! i = Some c ∧
    (raw = background_noise → c = "silence") ∧
    (raw ≠ background_noise → raw ∈ legal_labels → c = raw) ∧
    (raw ≠ background_noise → raw ∉ legal_labels → c = "unknown").
Proof.
  intros Hi. exists (canonical_label raw).
  rewrite nlabels_of_fmap, list_lookup_fmap, Hi. split; [done|].
  unfold canonical_label. split_and!.
  - intros ->. by rewrite decide_True.
  - intros Hne Hin. rewrite decide_False by done.
    by rewrite bool_decide_eq_true_2.
  - intros Hne Hin. rewrite decide_False by done.
    by rewrite bool_decide_eq_false_2.
Qed.

Lemma canonical_label_rules_witness :
  ["yes"; "_background_noise_"; "banana"; "silence"] !! 3%nat = Some "silence" ∧
  ∃ c, nlabels_of ["yes"; "_background_noise_"; "banana"; "silence"] !! 3%nat
       = Some c ∧
    ("silence" = background_noise → c = "silence") ∧
    ("silence" ≠ background_noise → "silence" ∈ legal_labels → c = "silence") ∧
    ("silence" ≠ background_noise → "silence" ∉ legal_labels → c = "unknown").
Proof.
  split; [reflexivity|].
  apply (canonical_label_rules
           ["yes"; "_background_noise_"; "banana"; "silence"] 3 "silence").
  reflexivity.
Defined.

(** C1, as stated, fails: on the first scenario the vectors have three
    entries, one per class present, in ascending order of the class
    names; [yes] sits at position 2, not at its vocabulary index 0. *)
Lemma transform_labels_scenario1 :
  _transform_labels scenario1_labels =
    [[0; 0; 1]; [0; 0; 1]; [0; 0; 1]; [1; 0; 0]; [0; 1; 0]] ∧
  _transform_labels scenario1_labels ≠ spec_transform_labels scenario1_labels.
Proof. split; [reflexivity|]. vm_compute. discriminate. Qed.

(** Two views of one directory need not agree: without the noise folder
    the class [unknown] moves from position 1 to position 0. *)
Example transform_labels_views_diverge :
  _transform_labels ["yes"; "_background_noise_"; "banana"]
    = [[0; 0; 1]; [1; 0; 0]; [0; 1; 0]] ∧
  _transform_labels ["yes"; "banana"] = [[0; 1]; [1; 0]].
Proof. split; reflexivity. Qed.

(** C1, amended: for every corpus in which all twelve canonical classes
    occur, the label encoder produces vectors of length 12 whose column
    order is the ascending order of the class names (down go left no off
    on right silence stop unknown up yes); the vector of an entry depends
    only on its canonical class, so a class occupies the same position in
    every such view. *)
Theorem transform_labels_full_vocabulary
    (labels : list string) (i : nat) (raw : string) :
  (∀ c, c ∈ legal_labels → c ∈ nlabels_of labels) →
  labels !! i = Some raw →
  ∃ row, _transform_labels labels !! i = Some row ∧
    length row = 12%nat ∧
    row = dummies_row sorted_labels (canonical_label raw) ∧
    ∀ (k : nat) c, sorted_labels !! k = Some c →
      row !! k = Some (if decide (c = canonical_label raw) then 1 else 0).
Proof.
  intros Hall Hi.
  assert (dummies_columns (nlabels_of labels) = sorted_labels) as Hcols.
  { apply dummies_columns_full; [|done].
    intros c. rewrite nlabels_of_fmap.
    intros (? & -> & _)%list_elem_of_fmap. apply canonical_label_legal. }
  eexists. rewrite (transform_labels_lookup _ _ _ Hi), Hcols.
  split_and!; [done| |done|].
  - by rewrite length_dummies_row.
  - intros k c Hk. by apply dummies_row_lookup.
Qed.

Lemma transform_labels_full_vocabulary_witness :
  (∀ c, c ∈ legal_labels → c ∈ nlabels_of (background_noise :: legal_labels)) ∧
  (background_noise :: legal_labels) !! 0%nat = Some background_noise ∧
  ∃ row, _transform_labels (background_noise :: legal_labels) !! 0%nat = Some row ∧
    length row = 12%nat ∧
    row = dummies_row sorted_labels (canonical_label background_noise) ∧
    ∀ (k : nat) c, sorted_labels !! k = Some c →
      row !! k = Some (if decide (c = canonical_label background_noise)
                       then 1 else 0).
Proof.
  assert (∀ c, c ∈ legal_labels →
               c ∈ nlabels_of (background_noise :: legal_labels)) as Hall.
  { intros c Hc. vm_compute nlabels_of. apply list_elem_of_further. exact Hc. }
  split; [exact Hall|]. split; [reflexivity|].
  apply (transform_labels_full_vocabulary
           (background_noise :: legal_labels) 0 background_noise Hall).
  reflexivity.
Defined.

(** C8: every label vector attached at indexing time,
    [self._transformed_labels[idx]], is one-hot: its entries are 0 or 1,
    exactly one of them is 1, and they sum to 1.  This is the [label] of
    the sample [__getitem__] returns. *)
Theorem label_vector_one_hot {RandomState Out : Type}
    (dir : Directory) (subset_path : option string)
    (tr : option (Transform RandomState Out))
    (self : SoundDataset RandomState Out) (idx : Z) (row : list Z) :
  __init__ dir subset_path tr = OK self →
  Py.getitem (_transformed_labels self) idx = OK row →
  one_hot row.
Proof.
  intros (_ & _ & _ & Ht & _)%init_OK Hrow%getitem_OK_elem_of.
  rewrite Ht in Hrow. by eapply transform_labels_rows_one_hot.
Qed.

Lemma label_vector_one_hot_witness :
  ∃ self : SoundDataset unit unit,
    __init__ scenario1_directory None None = OK self ∧
    Py.getitem (_transformed_labels self) 3 = OK [1; 0; 0] ∧
    one_hot [1; 0; 0].
Proof.
  eexists. split; [reflexivity|]. split; [reflexivity|].
  eapply (label_vector_one_hot (RandomState:=unit) (Out:=unit)
            scenario1_directory None None _ 3 [1; 0; 0]);
    reflexivity.
Defined.

(** ** Claims about indexing *)

(** C6: the code does not do what the claim says.  When no file is
    retained, because the directory holds no audio file or because the
    subset names none of its files, [unzip2] has nothing to unpack into
    its two names and the constructor raises [ValueError]; no view of
    length 0 is ever built. *)
Theorem init_empty_corpus_raises :
  @__init__ unit unit [] None None = Err ValueError ∧
  @__init__ unit unit scenario3_directory (Some "yes/zzz999.wav") None
    = Err ValueError.
Proof. split; reflexivity. Qed.

(** The same holds for every directory and subset that retain nothing. *)
Lemma init_nothing_retained {RandomState Out : Type}
    (dir : Directory) (tr : option (Transform RandomState Out)) :
  (retained None dir = [] → __init__ dir None tr = Err ValueError) ∧
  (∀ file s, _load_subset file = OK s → retained (Some s) dir = [] →
             __init__ dir (Some file) tr = Err ValueError).
Proof.
  split.
  - intros H. unfold __init__. simpl. by rewrite list_of_wavs_empty.
  - intros file s Hs H. unfold __init__. rewrite Hs. simpl.
    by rewrite list_of_wavs_empty.
Qed.

(** C7, as stated, fails: index [-1] on a view of two entries is not
    rejected, it returns the last entry. *)
Lemma getitem_minus_one_wraps :
  ∃ self : SoundDataset unit unit,
    __init__ scenario3_directory None None = OK self ∧
    __len__ self = 2 ∧
    __getitem__ self (-1) tt =
      OK (Raw {| sample_rate := 16000; samples := [1; 5]; label := [1] |}, tt) ∧
    __getitem__ self (-1) tt ≠ Err IndexError.
Proof. eexists. split_and!; [reflexivity..|discriminate]. Qed.

(** C7, amended: for every dataset view, an index at or beyond
    [length()] or below [-length()] fails with [IndexError], and nothing
    is clamped; an index in [[-length(), 0)] is resolved, as Python lists
    do, to the entry at [index + length()]. *)
Theorem getitem_bounds {RandomState Out : Type}
    (dir : Directory) (subset_path : option string)
    (tr : option (Transform RandomState Out))
    (self : SoundDataset RandomState Out) (idx : Z) (st : RandomState) :
  __init__ dir subset_path tr = OK self →
  (idx < - __len__ self ∨ __len__ self ≤ idx →
   __getitem__ self idx st = Err IndexError) ∧
  (- __len__ self ≤ idx < 0 →
   __getitem__ self idx st = __getitem__ self (idx + __len__ self) st).
Proof.
  intros [Hs Ht]%init_lengths. unfold __len__, __getitem__. split.
  - intros H. by rewrite (getitem_out_of_range (_labels self)) by done.
  - intros H.
    rewrite (getitem_negative (_labels self)) by done.
    rewrite (getitem_negative (_sounds self)) by (rewrite Hs; done).
    rewrite (getitem_negative (_transformed_labels self)) by (rewrite Ht; done).
    by rewrite Hs, Ht.
Qed.

Lemma getitem_bounds_witness :
  ∃ self : SoundDataset unit unit,
    __init__ scenario3_directory None None = OK self ∧
    (2 < - __len__ self ∨ __len__ self ≤ 2 →
     __getitem__ self 2 tt = Err IndexError) ∧
    (- __len__ self ≤ 2 < 0 →
     __getitem__ self 2 tt = __getitem__ self (2 + __len__ self) tt).
Proof.
  eexists. split; [reflexivity|].
  eapply (getitem_bounds (Out:=unit) scenario3_directory None None _ 2 tt).
  reflexivity.
Defined.

(** ** Claims about subset filters *)

Lemma filter_length_mono {A} (P Q : A → Prop)
    `{∀ x, Decision (P x)} `{∀ x, Decision (Q x)} (l : list A) :
  (∀ x, P x → Q x) → (length (filter P l) ≤ length (filter Q l))%nat.
Proof.
  intros HPQ. induction l as [|x l IH]; [done|].
  destruct (decide (P x)) as [HP|HP].
  - rewrite (filter_cons_True P), (filter_cons_True Q) by auto. simpl. lia.
  - rewrite (filter_cons_False P) by done.
    destruct (decide (Q x)).
    + rewrite (filter_cons_True Q) by auto. simpl. lia.
    + by rewrite (filter_cons_False Q).
Qed.

Lemma retained_length_mono (F1 F2 : gset string) (dir : Directory) :
  F1 ⊆ F2 →
  (length (retained (Some F1) dir) ≤ length (retained (Some F2) dir))%nat.
Proof.
  intros Hsub. unfold retained. apply filter_length_mono.
  intros p. simpl. rewrite !bool_decide_spec. apply Hsub.
Qed.

Lemma retained_length_all (F : gset string) (dir : Directory) :
  (length (retained (Some F) dir) ≤ length (retained None dir))%nat.
Proof. unfold retained. by apply filter_length_mono. Qed.

(** C9: for every directory and any two subset filters [F1 ⊆ F2] (read
    from two membership files), whenever the view with [F1] is built, the
    view with [F2] is built as well and is at least as long. *)
Theorem view_length_monotone {RandomState Out : Type}
    (dir : Directory) (tr : option (Transform RandomState Out))
    (file1 file2 : string) (F1 F2 : gset string)
    (view1 : SoundDataset RandomState Out) :
  _load_subset file1 = OK F1 →
  _load_subset file2 = OK F2 →
  F1 ⊆ F2 →
  __init__ dir (Some file1) tr = OK view1 →
  ∃ view2, __init__ dir (Some file2) tr = OK view2 ∧
           __len__ view1 ≤ __len__ view2.
Proof.
  intros H1 H2 Hsub Hv1.
  pose proof (retained_length_mono F1 F2 dir Hsub) as Hlen.
  assert (_subset view1 = Some F1) as HF1.
  { revert Hv1. unfold __init__. rewrite H1. simpl.
    destruct (_list_of_wavs _ _ _) as [[??]|]; simpl; [|done].
    by intros [= <-]. }
  apply init_OK in Hv1 as (Hne & Hl & _). rewrite HF1 in Hne, Hl.
  assert (retained (Some F2) dir ≠ []) as Hne2.
  { intros Heq. rewrite Heq in Hlen. destruct (retained (Some F1) dir); [done|].
    simpl in Hlen. lia. }
  eexists. split.
  - unfold __init__. rewrite H2. simpl.
    rewrite (list_of_wavs_nonempty _ _ Hne2). reflexivity.
  - unfold __len__. simpl. rewrite Hl, !length_fmap. lia.
Qed.

Lemma view_length_monotone_witness :
  ∃ (F1 F2 : gset string) (view1 : SoundDataset unit unit),
    _load_subset scenario3_subset = OK F1 ∧
    _load_subset scenario3_both = OK F2 ∧
    F1 ⊆ F2 ∧
    __init__ scenario3_directory (Some scenario3_subset) None = OK view1 ∧
    ∃ view2 : SoundDataset unit unit,
      __init__ scenario3_directory (Some scenario3_both) None = OK view2 ∧
      __len__ view1 ≤ __len__ view2.
Proof.
  exists {["abc123.wav"]}, {["abc123.wav"; "def456.wav"]}. eexists.
  assert (_load_subset scenario3_subset = OK ({["abc123.wav"]} : gset string))
    as H1 by (vm_compute; reflexivity).
  assert (_load_subset scenario3_both
          = OK ({["abc123.wav"; "def456.wav"]} : gset string))
    as H2 by (vm_compute; reflexivity).
  assert (({["abc123.wav"]} : gset string) ⊆ {["abc123.wav"; "def456.wav"]})
    as Hsub by (by_compute).
  assert (@__init__ unit unit scenario3_directory (Some scenario3_subset) None
          = OK {| directory := scenario3_directory;
                  transform := None;
                  _subset := Some {["abc123.wav"]};
                  _labels := ["yes"];
                  _sounds := ["abc123.wav"];
                  _transformed_labels := [[1]] |})
    as Hv1 by (vm_compute; reflexivity).
  split; [exact H1|]. split; [exact H2|]. split; [exact Hsub|].
  split; [exact Hv1|].
  exact (view_length_monotone scenario3_directory None
           scenario3_subset scenario3_both _ _ _ H1 H2 Hsub Hv1).
Defined.

(** A filtered view is never longer than the unfiltered view of the same
    directory, which is built whenever the filtered one is. *)
Lemma view_length_subset_full {RandomState Out : Type}
    (dir : Directory) (tr : option (Transform RandomState Out))
    (file : string) (view1 : SoundDataset RandomState Out) :
  __init__ dir (Some file) tr = OK view1 →
  ∃ view2, __init__ dir None tr = OK view2 ∧ __len__ view1 ≤ __len__ view2.
Proof.
  intros Hv1.
  assert (∃ F, _subset view1 = Some F) as [F HF].
  { revert Hv1. unfold __init__.
    destruct (_load_subset file) as [F|]; simpl; [|done].
    destruct (_list_of_wavs _ _ _) as [[??]|]; simpl; [|done].
    intros [= <-]. by exists F. }
  pose proof (retained_length_all F dir) as Hlen.
  apply init_OK in Hv1 as (Hne & Hl & _). rewrite HF in Hne, Hl.
  assert (retained None dir ≠ []) as Hne2.
  { intros Heq. rewrite Heq in Hlen. destruct (retained (Some F) dir); [done|].
    simpl in Hlen. lia. }
  eexists. split.
  - unfold __init__. simpl. rewrite (list_of_wavs_nonempty _ _ Hne2).
    reflexivity.
  - unfold __len__. simpl. rewrite Hl, !length_fmap. lia.
Qed.

(** The third scenario: the subset names one of the two files. *)
Example scenario3_view :
  ∃ self : SoundDataset unit unit,
    __init__ scenario3_directory (Some scenario3_subset) None = OK self ∧
    __len__ self = 1 ∧
    _labels self = ["yes"] ∧ _sounds self = ["abc123.wav"].
Proof. eexists. split_and!; reflexivity. Qed.

(** ** Claims about the subset membership file *)

Section LoadSubset.

Implicit Types (file line s : string) (sep : ascii).

Lemma split_without_sep sep s :
  Py.contains sep s = false → Py.split sep s = [s].
Proof.
  induction s as [|c s IH]; simpl; [done|].
  destruct (Ascii.eqb c sep); simpl; [done|].
  intros H. by rewrite IH.
Qed.

Lemma split_with_sep sep s :
  Py.contains sep s = true → (2 ≤ length (Py.split sep s))%nat.
Proof.
  induction s as [|c s IH]; simpl; [done|].
  destruct (Ascii.eqb c sep); simpl.
  - intros _. destruct s; simpl; [lia|].
    destruct (Ascii.eqb _ _); simpl; [lia|].
    destruct (Py.split sep s); simpl; lia.
  - intros H. specialize (IH H).
    destruct (Py.split sep s); simpl in *; lia.
Qed.

(** A text ending in the separator has an empty last segment. *)
Lemma split_trailing_sep sep s :
  ∃ l, l ≠ [] ∧ Py.split sep (s +:+ String sep "") = l ++ [""].
Proof.
  induction s as [|c s (l & Hl & IH)].
  - exists [""]. split; [done|]. simpl. by rewrite Ascii.eqb_refl.
  - change (String c s +:+ String sep "")
      with (String c (s +:+ String sep "")).
    simpl. rewrite IH. destruct (Ascii.eqb c sep).
    + by exists ("" :: l).
    + destruct l as [|seg rest]; [done|]. by exists (String c seg :: rest).
Qed.

Lemma getitem_Err {A} (l : list A) (idx : Z) e :
  Py.getitem l idx = Err e → e = IndexError.
Proof.
  unfold Py.getitem. destruct (_ && _); [|congruence].
  destruct (l !! _); congruence.
Qed.

Lemma traverse_Err {A B} (f : A → result B) (l : list A) x e :
  x ∈ l → (∃ e', f x = Err e') → (∀ y e', f y = Err e' → e' = e) →
  traverse f l = Err e.
Proof.
  intros Hx [e' Hfx] Hf. induction l as [|y l IH]; [by apply elem_of_nil in Hx|].
  simpl. destruct (f y) as [b|e''] eqn:Hfy; simpl.
  - apply elem_of_cons in Hx as [->|Hx]; [congruence|].
    by rewrite IH.
  - f_equal. by eapply Hf.
Qed.

Lemma traverse_OK {A B} (f : A → result B) (l : list A) :
  (∀ x, x ∈ l → ∃ y, f x = OK y) →
  ∃ ys, traverse f l = OK ys ∧ Forall2 (λ x y, f x = OK y) l ys.
Proof.
  induction l as [|x l IH]; intros H; [by exists []|].
  destruct (H x) as [y Hy]; [by left|].
  destruct IH as (ys & Hys & Hall); [intros; apply H; by right|].
  exists (y :: ys). simpl. rewrite Hy. simpl. rewrite Hys. simpl.
  split; [done|]. by constructor.
Qed.

Lemma name_of_line_without_slash line :
  Py.contains slash line = false →
  Py.getitem (Py.split slash line) 1 = Err IndexError.
Proof. intros H. by rewrite split_without_sep. Qed.

(** When every line has a separator, loading returns the set of the
    segments found at index 1, one per line. *)
Lemma load_subset_OK file :
  (∀ line, line ∈ Py.split newline file → Py.contains slash line = true) →
  ∃ names, _load_subset file = OK (list_to_set names) ∧
    Forall2 (λ line name, Py.getitem (Py.split slash line) 1 = OK name)
            (Py.split newline file) names.
Proof.
  intros H. unfold _load_subset.
  destruct (traverse_OK (λ path, Py.getitem (Py.split slash path) 1)
              (Py.split newline file)) as (names & Hn & Hall).
  - intros line Hline. apply getitem_is_OK.
    pose proof (split_with_sep slash line (H line Hline)). lia.
  - exists names. by rewrite Hn.
Qed.

End LoadSubset.

(** C10: loading a subset file takes segment 1 of every line split on
    the slash, so a text with a line that has no slash fails with
    [IndexError]; a text ending in a newline always has such a line, the
    empty last one. *)
Theorem load_subset_line_without_slash (file : string) :
  (∃ line, line ∈ Py.split newline file ∧ Py.contains slash line = false) ∨
  (∃ text, file = text +:+ String newline "") →
  _load_subset file = Err IndexError.
Proof.
  intros H.
  assert (∃ line, line ∈ Py.split newline file ∧
                  Py.contains slash line = false) as (line & Hin & Hno).
  { destruct H as [H|[text ->]]; [done|]. exists "".
    destruct (split_trailing_sep newline text) as (l & _ & ->).
    split; [|done]. apply elem_of_app. right. by left. }
  unfold _load_subset.
  rewrite (traverse_Err _ _ line IndexError); [done|done| |].
  - exists IndexError. by apply name_of_line_without_slash.
  - intros y e'. apply getitem_Err.
Qed.

Lemma load_subset_line_without_slash_witness :
  ((∃ line, line ∈ Py.split newline scenario3_trailing_newline ∧
            Py.contains slash line = false) ∨
   (∃ text, scenario3_trailing_newline = text +:+ String newline "")) ∧
  _load_subset scenario3_trailing_newline = Err IndexError.
Proof.
  assert ((∃ line, line ∈ Py.split newline scenario3_trailing_newline ∧
                   Py.contains slash line = false) ∨
          (∃ text, scenario3_trailing_newline = text +:+ String newline ""))
    as H.
  { right. exists "yes/abc123.wav". reflexivity. }
  split; [exact H|].
  exact (load_subset_line_without_slash scenario3_trailing_newline H).
Defined.

(** ** Stage A: [RandomChop] *)

Section RandomChopProperties.

Context {RandomState : Type} (random_raw : RandomState → nat * RandomState).
Implicit Types (T : nat) (audio : list Z) (st : RandomState).

Lemma randint_range (low high : nat) st :
  (low < high)%nat →
  ∃ x st', randint random_raw low high st = OK (x, st') ∧
           (low ≤ x < high)%nat.
Proof.
  intros H. unfold randint. rewrite decide_True by done.
  destruct (random_raw st) as [x st']. eexists _, _. split; [done|].
  pose proof (Nat.mod_upper_bound x (high - low)). lia.
Qed.

Lemma length_pad_audio T audio :
  length (_pad_audio T audio) = (T `max` length audio)%nat.
Proof.
  unfold _pad_audio, Py.pad_left. case_decide; [lia|].
  rewrite length_app, length_replicate. lia.
Qed.

Lemma length_slice {A} (l : list A) (start stop : nat) :
  (start ≤ stop ≤ length l)%nat →
  length (Py.slice l start stop) = (stop - start)%nat.
Proof. intros H. unfold Py.slice. rewrite length_take, length_drop. lia. Qed.

Lemma chop_audio_OK T audio st :
  (T < length audio)%nat →
  ∃ start st', _chop_audio random_raw T audio st
               = OK (take T (drop start audio), st') ∧
               (start < length audio - T)%nat.
Proof.
  intros H. unfold _chop_audio.
  destruct (randint_range 0 (length audio - T) st) as (x & st' & -> & Hx);
    [lia|].
  exists x, st'. simpl. unfold Py.slice. split; [|lia].
  by replace (x + T - x)%nat with T by lia.
Qed.

(** The three cases of [RandomChop.__call__]. *)
Lemma RandomChop_longer T sample st :
  (T < length (samples sample))%nat →
  ∃ start st',
    (start < length (samples sample) - T)%nat ∧
    RandomChop_call random_raw T sample st =
      OK ({| sample_rate := sample_rate sample;
             samples := take T (drop start (samples sample));
             label := label sample |}, st').
Proof.
  intros H. unfold RandomChop_call.
  assert (_pad_audio T (samples sample) = samples sample) as ->.
  { unfold _pad_audio. rewrite decide_True; [done|lia]. }
  rewrite decide_True by done.
  destruct (chop_audio_OK T (samples sample) st H) as (start & st' & -> & ?).
  by exists start, st'.
Qed.

Lemma RandomChop_exact T sample st :
  length (samples sample) = T →
  RandomChop_call random_raw T sample st =
    OK ({| sample_rate := sample_rate sample;
           samples := samples sample;
           label := label sample |}, st).
Proof.
  intros H. unfold RandomChop_call.
  assert (_pad_audio T (samples sample) = samples sample) as ->.
  { unfold _pad_audio. rewrite decide_True; [done|lia]. }
  rewrite decide_False by lia. done.
Qed.

Lemma RandomChop_shorter T sample st :
  (length (samples sample) < T)%nat →
  RandomChop_call random_raw T sample st =
    OK ({| sample_rate := sample_rate sample;
           samples := replicate (T - length (samples sample)) 0
                      ++ samples sample;
           label := label sample |}, st).
Proof.
  intros H. unfold RandomChop_call.
  assert (_pad_audio T (samples sample)
          = replicate (T - length (samples sample)) 0 ++ samples sample)
    as ->.
  { unfold _pad_audio, Py.pad_left. rewrite decide_False; [done|lia]. }
  rewrite decide_False; [done|].
  rewrite length_app, length_replicate. lia.
Qed.

(** [RandomChop.__call__] always returns, with [T] samples and the
    rate and label it was given. *)
Lemma RandomChop_call_length T sample st :
  ∃ out st',
    RandomChop_call random_raw T sample st = OK (out, st') ∧
    sample_rate out = sample_rate sample ∧
    label out = label sample ∧
    length (samples out) = T.
Proof.
  destruct (lt_eq_lt_dec (length (samples sample)) T) as [[Hlt|Heq]|Hgt].
  - eexists _, _. split; [by apply RandomChop_shorter|]. simpl.
    split_and!; [done|done|]. rewrite length_app, length_replicate. lia.
  - eexists _, _. split; [by apply RandomChop_exact|]. done.
  - destruct (RandomChop_longer T sample st Hgt) as (start & st' & Hs & ->).
    eexists _, _. split; [done|]. simpl. split_and!; [done|done|].
    rewrite length_take, length_drop. lia.
Qed.

End RandomChopProperties.

(** The crop of a longer input: one call of [randint (0, L - T)], whose
    value is the offset and whose state is the state returned. *)
Lemma RandomChop_longer_draw {RandomState : Type}
    (random_raw : RandomState → nat * RandomState)
    (T : nat) (sample : Sample) (st : RandomState) :
  (T < length (samples sample))%nat →
  let start := ((random_raw st).1 mod (length (samples sample) - T))%nat in
  randint random_raw 0 (length (samples sample) - T) st
    = OK (start, (random_raw st).2) ∧
  RandomChop_call random_raw T sample st =
    OK ({| sample_rate := sample_rate sample;
           samples := take T (drop start (samples sample));
           label := label sample |}, (random_raw st).2).
Proof.
  intros Hlen start. unfold RandomChop_call.
  assert (_pad_audio T (samples sample) = samples sample) as ->.
  { unfold _pad_audio. rewrite decide_True; [done|lia]. }
  rewrite decide_True by done. unfold _chop_audio, randint.
  rewrite decide_True by lia. subst start.
  destruct (random_raw st) as [x st0]. simpl. rewrite !Nat.sub_0_r.
  split; [done|]. unfold Py.slice.
  by replace (x mod (length (samples sample) - T) + T
              - x mod (length (samples sample) - T))%nat with T by lia.
Qed.


(** Every offset of [[0, L - T)] is drawn by some generator state. *)
Lemma RandomChop_every_offset (T : nat) (sample : Sample) (start : nat) :
  (start < length (samples sample) - T)%nat →
  RandomChop_call counting_raw T sample start =
    OK ({| sample_rate := sample_rate sample;
           samples := take T (drop start (samples sample));
           label := label sample |}, S start).
Proof.
  intros H. unfold RandomChop_call.
  assert (_pad_audio T (samples sample) = samples sample) as ->.
  { unfold _pad_audio. rewrite decide_True; [done|lia]. }
  rewrite decide_True by lia.
  unfold _chop_audio, randint. rewrite decide_True by lia. simpl.
  rewrite Nat.mod_small by lia. unfold Py.slice.
  by replace (start + T - start)%nat with T by lia.
Qed.

(** ** Stage B: the resampled length *)

Lemma to_int_truncation (x : spec_float) (k : Z) :
  Float64.to_int x = OK k → truncation_of x k.
Proof.
  destruct x as [s|s| |s m e]; simpl; try done.
  - by intros [= <-].
  - intros [= <-].
    assert (∀ q, 0 ≤ q → Z.abs (cond_Zopp s q) = q) as Habs.
    { intros q Hq. destruct s; simpl; lia. }
    destruct e as [|p|p].
    + rewrite Z.shiftl_0_r, Habs by lia. split; [done|].
      replace (Z.max 0 (- 0)) with 0 by lia.
      replace (Z.max 0 0) with 0 by lia. rewrite Z.pow_0_r. lia.
    + assert (0 < 2 ^ Z.pos p) as Hpow by (apply Z.pow_pos_nonneg; lia).
      rewrite Z.shiftl_mul_pow2, Habs by lia.
      replace (Z.max 0 (- Z.pos p)) with 0 by lia.
      replace (Z.max 0 (Z.pos p)) with (Z.pos p) by lia.
      rewrite Z.pow_0_r. split; [done|]. lia.
    + rewrite Z.shiftr_div_pow2 by lia.
      assert (0 < 2 ^ Z.pos p) as Hpow by (apply Z.pow_pos_nonneg; lia).
      assert (0 ≤ Z.pos m / 2 ^ Z.pos p) as Hq by (apply Z.div_pos; lia).
      rewrite Habs by done. split; [done|].
      replace (Z.max 0 (- Z.neg p)) with (Z.pos p) by lia.
      replace (Z.max 0 (Z.neg p)) with 0 by lia.
      pose proof (Z.div_mod (Z.pos m) (2 ^ Z.pos p)) as Hdm.
      pose proof (Z.mod_pos_bound (Z.pos m) (2 ^ Z.pos p) Hpow).
      rewrite Z.pow_0_r. lia.
Qed.

Lemma forallb_from_spec (f : Z → bool) (lo : Z) (n : nat) (z : Z) :
  forallb_from f lo n = true → lo ≤ z < lo + Z.of_nat n → f z = true.
Proof.
  revert lo. induction n as [|n IH]; intros lo; simpl; [lia|].
  intros [Hlo Hrest]%andb_prop Hz.
  destruct (decide (z = lo)) as [->|]; [done|].
  apply (IH (lo + 1)); [done|lia].
Qed.

(** With the defaults, 16000 samples resampled to 8000 Hz, the requested
    length is the integer quotient for every original rate up to
    48 kHz. *)
Lemma Specgram_num_default_rates (r : Z) :
  1 ≤ r ≤ 48000 → Specgram_num 8000 r 16000 = OK (8000 * 16000 / r).
Proof.
  intros Hr.
  pose (f := λ r, match Specgram_num 8000 r 16000 with
                  | OK k => k =? 8000 * 16000 / r
                  | Err _ => false
                  end).
  assert (forallb_from f 1 (Z.to_nat 48000) = true) as Hall
    by (vm_compute; reflexivity).
  pose proof (forallb_from_spec f 1 _ r Hall) as Hf.
  unfold f in Hf. destruct (Specgram_num 8000 r 16000) as [k|e].
  - f_equal. apply Z.eqb_eq, Hf. lia.
  - discriminate Hf. lia.
Qed.

(** A header announcing a rate of zero makes the division raise. *)
Lemma Specgram_num_zero_rate (target_rate N : Z) :
  Specgram_num target_rate 0 N = Err ZeroDivisionError.
Proof. reflexivity. Qed.

(** C4, as stated, fails: one second of audio recorded at 22050 Hz is
    resampled to 5804 samples, while [8000 / 22050 * 16000] is about
    5804.99 and rounds to 5805. *)
Lemma Specgram_num_22050_not_rounded :
  (Specgram_num 8000 22050 16000 ≫= resample_len) = OK 5804 ∧
  ¬ nearest_integer (8000 * 16000) 22050 5804 ∧
  nearest_integer (8000 * 16000) 22050 5805.
Proof.
  split; [reflexivity|]. unfold nearest_integer. split; [|lia].
  intros H. revert H. by_compute.
Qed.

(** C4, amended: the number of samples Stage B asks the resampler for is
    [int(target_rate / r * N)], the double-precision product truncated
    toward zero rather than rounded to the nearest integer.  With the
    defaults (16000 samples, target 8000 Hz) and an original rate between
    1 Hz and 48 kHz it is the integer quotient [128000000 // r]. *)
Theorem Specgram_num_truncates (target_rate r N : Z) :
  (∀ k, Specgram_num target_rate r N = OK k →
        ∃ ratio len,
          Float64.int_truediv target_rate r = OK ratio ∧
          Float64.of_int N = OK len ∧
          truncation_of (Float64.mul ratio len) k) ∧
  (1 ≤ r ≤ 48000 →
   (Specgram_num 8000 r 16000 ≫= resample_len) = OK (8000 * 16000 / r)).
Proof.
  split.
  - intros k. unfold Specgram_num.
    intros (ratio & Hratio & (len & Hlen & Hk)%bind_OK)%bind_OK.
    exists ratio, len. split_and!; [done|done|]. by apply to_int_truncation.
  - intros Hr. rewrite Specgram_num_default_rates by done. simpl.
    unfold resample_len.
    assert (0 ≤ 8000 * 16000 / r) by (apply Z.div_pos; lia).
    destruct (Z.ltb_spec (8000 * 16000 / r) 0); [lia|done].
Qed.

(** ** The spectrogram shape *)

Lemma Specgram_call_ext (self_sample_rate : Z) (s1 s2 : Sample) :
  sample_rate s1 = sample_rate s2 →
  length (samples s1) = length (samples s2) →
  label s1 = label s2 →
  Specgram_call self_sample_rate s1 = Specgram_call self_sample_rate s2.
Proof. unfold Specgram_call. by intros -> -> ->. Qed.

Lemma Specgram_call_shape (self_sample_rate : Z) (s : Sample) :
  spec_shape <$> Specgram_call self_sample_rate s =
  Specgram_shape self_sample_rate (sample_rate s) (length (samples s)).
Proof.
  unfold Specgram_shape, Specgram_call. simpl. rewrite length_replicate.
  destruct (Specgram_num _ _ _) as [num|]; simpl; [|done].
  destruct (resample_len num) as [resampled|]; simpl; [|done].
  destruct (_log_specgram_shape _ _ _ _) as [specgram|]; simpl; [|done].
  destruct (Py.getitem specgram 0); simpl; [|done].
  by destruct (Py.getitem specgram 1).
Qed.

(** The chain's shape is Stage B's shape at the chopped length. *)
Lemma pipeline_shape_stage_b {RandomState : Type}
    (random_raw : RandomState → nat * RandomState)
    (T : nat) (spec_rate rate : Z) (audio : list Z) (st : RandomState) :
  pipeline_shape random_raw T spec_rate rate audio st =
  Specgram_shape spec_rate rate T.
Proof.
  unfold pipeline_shape, compose_transform.
  destruct (RandomChop_call_length random_raw T
              {| sample_rate := rate; samples := audio; label := [] |} st)
    as (out & st' & -> & Hrate & Hlabel & Hlen).
  simpl in *. rewrite <- Hrate, <- Hlen at 1.
  rewrite <- Specgram_call_shape.
  by destruct (Specgram_call spec_rate out).
Qed.

(** C5, as stated, fails: with the default parameters a file recorded at
    16 kHz gives 99 time bins and a file recorded at 8 kHz gives 199. *)
Lemma pipeline_shape_depends_on_rate :
  pipeline_shape counting_raw (Z.to_nat 16000) 8000 16000 [3; -1; 4] 0%nat
    = OK [1; 99; 81] ∧
  pipeline_shape counting_raw (Z.to_nat 16000) 8000 8000 [3; -1; 4] 0%nat
    = OK [1; 199; 81] ∧
  pipeline_shape counting_raw (Z.to_nat 16000) 8000 16000 [3; -1; 4] 0%nat
    ≠ pipeline_shape counting_raw (Z.to_nat 16000) 8000 8000 [3; -1; 4] 0%nat.
Proof. split_and!; vm_compute; [reflexivity|reflexivity|discriminate]. Qed.

(** C5, amended: for a fixed Stage A target length, fixed Stage B
    parameters and a fixed original sample rate, the chain returns the
    same shape [(1, time_bins, freq_bins)] for every file, whatever its
    duration and whatever offset is drawn; with the defaults and files
    recorded at 16 kHz that shape is [(1, 99, 81)]. *)
Theorem pipeline_shape_fixed_rate {RandomState : Type}
    (random_raw : RandomState → nat * RandomState)
    (T : nat) (spec_rate rate : Z) (audio1 audio2 : list Z)
    (st1 st2 : RandomState) :
  pipeline_shape random_raw T spec_rate rate audio1 st1 =
    pipeline_shape random_raw T spec_rate rate audio2 st2 ∧
  pipeline_shape random_raw (Z.to_nat 16000) 8000 16000 audio1 st1
    = OK [1; 99; 81].
Proof.
  rewrite !pipeline_shape_stage_b. split; [done|].
  vm_compute. reflexivity.
Qed.

(** The second scenario: 12000 samples padded to 16000, then resampled
    to 8000. *)
Lemma scenario2 {RandomState : Type}
    (random_raw : RandomState → nat * RandomState)
    (audio : list Z) (st : RandomState) :
  length audio = Z.to_nat 12000 →
  ∃ out,
    RandomChop_call random_raw (Z.to_nat 16000)
      {| sample_rate := 16000; samples := audio; label := [] |} st
      = OK (out, st) ∧
    samples out = replicate (Z.to_nat 4000) 0 ++ audio ∧
    Specgram_num 8000 (sample_rate out) (Z.of_nat (length (samples out)))
      = OK 8000.
Proof.
  intros Hlen. eexists. split.
  - apply RandomChop_shorter. simpl. rewrite Hlen. lia.
  - simpl. rewrite Hlen. split; [f_equal|].
    rewrite length_app, length_replicate, Hlen. reflexivity.
Qed.

(** * Further properties of the notebook's code *)

(** ** [unzip2] and the entries of a view *)

(** X1: when [unzip2] returns, its two lists are as long as its input and
    zipping them gives the input back. *)
Theorem unzip2_zip {A : Type} (values : list (A * A)) (a b : list A) :
  unzip2 values = OK (a, b) →
  length a = length values ∧ length b = length values ∧ zip a b = values.
Proof.
  intros (_ & -> & ->)%unzip2_OK.
  by rewrite !length_fmap, zip_fst_snd.
Qed.

Lemma unzip2_zip_witness :
  unzip2 [("yes", "a.wav"); ("no", "b.wav")]
    = OK (["yes"; "no"], ["a.wav"; "b.wav"]) ∧
  length ["yes"; "no"] = length [("yes", "a.wav"); ("no", "b.wav")] ∧
  length ["a.wav"; "b.wav"] = length [("yes", "a.wav"); ("no", "b.wav")] ∧
  zip ["yes"; "no"] ["a.wav"; "b.wav"] = [("yes", "a.wav"); ("no", "b.wav")].
Proof.
  split; [reflexivity|].
  apply (unzip2_zip [("yes", "a.wav"); ("no", "b.wav")]). reflexivity.
Defined.

Lemma zip_fmap_same {A B C} (f : A → B) (g : A → C) (l : list A) :
  zip (f <$> l) (g <$> l) = (λ x, (f x, g x)) <$> l.
Proof. induction l as [|x l IH]; [done|]. rewrite !fmap_cons. simpl. by f_equal. Qed.

Lemma retained_None (dir : Directory) : retained None dir = glob dir "wav".
Proof.
  unfold retained. simpl. induction (glob dir "wav") as [|p l IH]; [done|].
  rewrite filter_cons_True by done. by rewrite IH.
Qed.

Lemma retained_sublist (subset : option (gset string)) (dir : Directory) :
  retained subset dir `sublist_of` retained None dir.
Proof. rewrite retained_None. apply sublist_filter. Qed.

Lemma elem_of_retained (subset : option (gset string)) (dir : Directory) p :
  p ∈ retained subset dir ↔
  p ∈ dir ∧ Py.endswith (fname p) ".wav" = true ∧
  _is_needed subset (fname p) = true.
Proof.
  unfold retained, glob. rewrite !list_elem_of_filter.
  rewrite !Is_true_true. tauto.
Qed.

Lemma init_entries {RandomState Out : Type} (dir : Directory)
    (subset_path : option string) (tr : option (Transform RandomState Out))
    (self : SoundDataset RandomState Out) :
  __init__ dir subset_path tr = OK self →
  entries self = paths (retained (_subset self) dir).
Proof.
  intros (_ & Hl & Hs & _)%init_OK. unfold entries, paths.
  by rewrite Hl, Hs, zip_fmap_same.
Qed.

(** The subset a view filters with is the one loaded from the file it
    was given, and none when no file was given. *)
Lemma init_subset {RandomState Out : Type} (dir : Directory)
    (subset_path : option string) (tr : option (Transform RandomState Out))
    (self : SoundDataset RandomState Out) :
  __init__ dir subset_path tr = OK self →
  match subset_path with
  | Some file => ∃ names, _load_subset file = OK names ∧
                          _subset self = Some names
  | None => _subset self = None
  end.
Proof.
  unfold __init__. destruct subset_path as [file|].
  - destruct (_load_subset file) as [names|]; simpl; [|done].
    destruct (_list_of_wavs _ _ _) as [[??]|]; simpl; [|done].
    intros [= <-]. by exists names.
  - simpl. destruct (_list_of_wavs _ _ _) as [[??]|]; simpl; [|done].
    by intros [= <-].
Qed.

(** X2: a view holds exactly the files of the directory whose name ends
    in [.wav] and, when a subset file is given, whose name is in the set
    loaded from that file; the test looks at the file name alone, not at
    the folder. *)
Theorem view_entries_spec {RandomState Out : Type} (dir : Directory)
    (subset_path : option string) (tr : option (Transform RandomState Out))
    (self : SoundDataset RandomState Out) (l s : string) :
  __init__ dir subset_path tr = OK self →
  (l, s) ∈ entries self ↔
  (l, s) ∈ paths dir ∧ Py.endswith s ".wav" = true ∧
  match subset_path with
  | Some file => ∃ names, _load_subset file = OK names ∧ s ∈ names
  | None => True
  end.
Proof.
  intros Hinit. rewrite (init_entries _ _ _ _ Hinit). unfold paths.
  rewrite !list_elem_of_fmap.
  assert (∀ name, _is_needed (_subset self) name = true ↔
                  match subset_path with
                  | Some file => ∃ names, _load_subset file = OK names ∧
                                          name ∈ names
                  | None => True
                  end) as Hneeded.
  { intros name. pose proof (init_subset _ _ _ _ Hinit) as Hsub.
    destruct subset_path as [file|].
    - destruct Hsub as (names & Hload & ->). simpl.
      rewrite bool_decide_eq_true. split; [by exists names|].
      intros (names' & Hload' & Hin). rewrite Hload in Hload'.
      by injection Hload' as ->.
    - by rewrite Hsub. }
  split.
  - intros (p & [= -> ->] & (Hp & Hw & Hn)%elem_of_retained).
    split_and!; [by exists p|done|by apply Hneeded].
  - intros ((p & [= -> ->] & Hp) & Hw & Hn).
    exists p. split; [done|]. apply elem_of_retained.
    split_and!; [done|done|by apply Hneeded].
Qed.

Lemma view_entries_spec_witness :
  ∃ self : SoundDataset unit unit,
    __init__ scenario3_directory (Some scenario3_subset) None = OK self ∧
    (("yes", "abc123.wav") ∈ entries self ↔
     ("yes", "abc123.wav") ∈ paths scenario3_directory ∧
     Py.endswith "abc123.wav" ".wav" = true ∧
     ∃ names, _load_subset scenario3_subset = OK names ∧
              "abc123.wav" ∈ names).
Proof.
  eexists. split; [reflexivity|].
  eapply (view_entries_spec (RandomState:=unit) (Out:=unit)
            scenario3_directory (Some scenario3_subset) None _
            "yes" "abc123.wav").
  reflexivity.
Defined.

(** X3: the entries of a view built with a subset file are a subsequence,
    in the same order, of the entries of the view built without one over
    the same directory, and that view exists. *)
Theorem subset_view_sublist {RandomState Out : Type} (dir : Directory)
    (tr : option (Transform RandomState Out)) (file : string)
    (view1 : SoundDataset RandomState Out) :
  __init__ dir (Some file) tr = OK view1 →
  ∃ view2, __init__ dir None tr = OK view2 ∧
           entries view1 `sublist_of` entries view2.
Proof.
  intros Hv1.
  pose proof (init_entries _ _ _ _ Hv1) as He1.
  pose proof (retained_sublist (_subset view1) dir) as Hsub.
  apply init_OK in Hv1 as (Hne & _).
  assert (retained None dir ≠ []) as Hne2.
  { intros Heq. rewrite Heq in Hsub. by apply sublist_nil_r in Hsub. }
  eexists. split.
  - unfold __init__. simpl. rewrite (list_of_wavs_nonempty _ _ Hne2).
    reflexivity.
  - rewrite He1. unfold entries. simpl. rewrite zip_fmap_same.
    unfold paths. by apply fmap_sublist.
Qed.

Lemma subset_view_sublist_witness :
  ∃ view1 view2 : SoundDataset unit unit,
    __init__ scenario3_directory (Some scenario3_subset) None = OK view1 ∧
    __init__ scenario3_directory None None = OK view2 ∧
    entries view1 `sublist_of` entries view2.
Proof.
  assert (@__init__ unit unit scenario3_directory (Some scenario3_subset) None
          = OK {| directory := scenario3_directory;
                  transform := None;
                  _subset := Some {["abc123.wav"]};
                  _labels := ["yes"];
                  _sounds := ["abc123.wav"];
                  _transformed_labels := [[1]] |})
    as Hv1 by (vm_compute; reflexivity).
  destruct (subset_view_sublist scenario3_directory None scenario3_subset _ Hv1)
    as (view2 & Hv2 & Hsub).
  eexists _, view2. split; [exact Hv1|]. split; [exact Hv2|exact Hsub].
Defined.

(** X4: a view that was built is never empty, and its three sequences
    (labels, file names, label vectors) all have [len(self)] items. *)
Theorem view_aligned_nonempty {RandomState Out : Type} (dir : Directory)
    (subset_path : option string) (tr : option (Transform RandomState Out))
    (self : SoundDataset RandomState Out) :
  __init__ dir subset_path tr = OK self →
  1 ≤ __len__ self ∧
  Z.of_nat (length (_sounds self)) = __len__ self ∧
  Z.of_nat (length (_transformed_labels self)) = __len__ self.
Proof.
  intros Hinit. destruct (init_lengths _ _ _ _ Hinit) as [Hs Ht].
  apply init_OK in Hinit as (Hne & Hl & _).
  unfold __len__. rewrite Hs, Ht. split_and!; [|done|done].
  rewrite Hl, length_fmap. destruct (retained _ _); [done|]. simpl. lia.
Qed.

Lemma view_aligned_nonempty_witness :
  ∃ self : SoundDataset unit unit,
    __init__ scenario1_directory None None = OK self ∧
    1 ≤ __len__ self ∧
    Z.of_nat (length (_sounds self)) = __len__ self ∧
    Z.of_nat (length (_transformed_labels self)) = __len__ self.
Proof.
  eexists. split; [reflexivity|].
  eapply (view_aligned_nonempty (RandomState:=unit) (Out:=unit)
            scenario1_directory None None _).
  reflexivity.
Defined.

(** ** Reading an entry *)

Lemma NoDup_fmap_inj {A B} (f : A → B) (l : list A) (x y : A) :
  NoDup (f <$> l) → x ∈ l → y ∈ l → f x = f y → x = y.
Proof.
  induction l as [|z l IH]; [by intros _ ?%elem_of_nil|].
  rewrite fmap_cons, NoDup_cons.
  intros [Hz Hnd] [->|Hx]%elem_of_cons [->|Hy]%elem_of_cons Hf; auto.
  - destruct Hz. rewrite Hf. by apply list_elem_of_fmap_2.
  - destruct Hz. rewrite <- Hf. by apply list_elem_of_fmap_2.
Qed.

Lemma wavfile_read_entry (dir : Directory) (p : DirEntry) :
  NoDup (paths dir) → p ∈ dir →
  wavfile_read dir (folder p) (fname p) =
    from_option OK (Err ValueError) (audio p).
Proof.
  intros Hnd Hp. unfold wavfile_read.
  destruct (list_find_elem_of
              (λ q, folder q = folder p ∧ fname q = fname p) dir p Hp)
    as [[i q] Hfind]; [done|].
  rewrite Hfind. apply list_find_Some in Hfind as (Hq & [Hf Hn] & _).
  assert (q = p) as ->.
  { apply (NoDup_fmap_inj (λ p, (folder p, fname p)) dir); [done| |done|].
    - by eapply list_elem_of_lookup_2.
    - by rewrite Hf, Hn. }
  by destruct (audio p).
Qed.

(** X5: in a directory whose paths are distinct, a view without
    transform returns at index [idx] the audio of its [idx]-th retained
    file together with the [idx]-th label vector, and leaves the
    generator state alone; a file that is not valid WAV makes the access
    raise [ValueError]. *)
Theorem getitem_reads_entry {RandomState Out : Type} (dir : Directory)
    (subset_path : option string) (self : SoundDataset RandomState Out)
    (idx : nat) (p : DirEntry) (st : RandomState) :
  NoDup (paths dir) →
  __init__ dir subset_path None = OK self →
  retained (_subset self) dir !! idx = Some p →
  ∃ row, _transformed_labels self !! idx = Some row ∧
    __getitem__ self (Z.of_nat idx) st =
      match audio p with
      | Some (rate, wav) =>
          OK (Raw {| sample_rate := rate; samples := wav; label := row |}, st)
      | None => Err ValueError
      end.
Proof.
  intros Hnd Hinit Hidx.
  pose proof (init_lengths _ _ _ _ Hinit) as [Hls Hlt].
  apply init_OK in Hinit as (_ & Hl & Hs & _ & Hdir & Htr).
  assert (_labels self !! idx = Some (folder p)) as Hlab
    by (by rewrite Hl, list_lookup_fmap, Hidx).
  assert (_sounds self !! idx = Some (fname p)) as Hsnd
    by (by rewrite Hs, list_lookup_fmap, Hidx).
  pose proof (lookup_lt_Some _ _ _ Hlab) as Hbound.
  destruct (lookup_lt_is_Some_2 (_transformed_labels self) idx) as [row Hrow];
    [lia|].
  exists row. split; [done|]. unfold __getitem__.
  rewrite (getitem_nonneg (_labels self)) by lia.
  rewrite (getitem_nonneg (_sounds self)) by lia.
  rewrite (getitem_nonneg (_transformed_labels self)) by lia.
  rewrite Nat2Z.id, Hlab, Hsnd, Hrow, Hdir, Htr. simpl.
  rewrite wavfile_read_entry; [|done|].
  - by destruct (audio p) as [[rate smp]|].
  - apply list_elem_of_lookup_2 in Hidx. by apply elem_of_retained in Hidx as [? _].
Qed.

Lemma getitem_reads_entry_witness :
  ∃ (self : SoundDataset unit unit) (p : DirEntry),
    NoDup (paths scenario1_directory) ∧
    __init__ scenario1_directory None None = OK self ∧
    retained (_subset self) scenario1_directory !! 4%nat = Some p ∧
    ∃ row, _transformed_labels self !! 4%nat = Some row ∧
      __getitem__ self (Z.of_nat 4) tt =
        match audio p with
        | Some (rate, wav) =>
            OK (Raw {| sample_rate := rate; samples := wav; label := row |}, tt)
        | None => Err ValueError
        end.
Proof.
  assert (NoDup (paths scenario1_directory)) as Hnd by by_compute.
  eexists _, _. split; [exact Hnd|]. split; [reflexivity|].
  split; [reflexivity|].
  eapply (getitem_reads_entry (RandomState:=unit) (Out:=unit)
            scenario1_directory None _ 4 _ tt Hnd); reflexivity.
Defined.

(** ** Writing and reading a membership file *)

Section SubsetFile.

Implicit Types (s t line : string) (sep : ascii)
  (files : list (string * string)).

Lemma contains_app sep s t :
  Py.contains sep (s +:+ t) = Py.contains sep s || Py.contains sep t.
Proof.
  induction s as [|c s IH]; [done|].
  change (String c s +:+ t) with (String c (s +:+ t)). simpl.
  by rewrite IH, orb_assoc.
Qed.

Lemma split_app_sep sep s t :
  Py.contains sep s = false →
  Py.split sep (s +:+ String sep t) = s :: Py.split sep t.
Proof.
  induction s as [|c s IH]; intros Hs.
  - change ("" +:+ String sep t) with (String sep t). simpl.
    by rewrite Ascii.eqb_refl.
  - change (String c s +:+ String sep t) with (String c (s +:+ String sep t)).
    simpl in *. destruct (Ascii.eqb c sep); [done|]. simpl in Hs.
    by rewrite IH.
Qed.

Lemma split_join sep (segments : list string) :
  segments ≠ [] →
  Forall (λ s, Py.contains sep s = false) segments →
  Py.split sep (join sep segments) = segments.
Proof.
  intros Hne Hall. induction Hall as [|s rest Hs Hrest IH]; [done|].
  destruct rest as [|s' rest].
  - simpl. by apply split_without_sep.
  - change (join sep (s :: s' :: rest))
      with (s +:+ String sep (join sep (s' :: rest))).
    rewrite split_app_sep by done. by rewrite IH.
Qed.

Lemma traverse_fmap_OK {A B C} (g : A → B) (f : B → result C) (h : A → C)
    (l : list A) :
  (∀ x, x ∈ l → f (g x) = OK (h x)) →
  traverse f (g <$> l) = OK (h <$> l).
Proof.
  induction l as [|x l IH]; intros H; [done|].
  rewrite !fmap_cons. simpl. rewrite H by left. simpl.
  rewrite IH by (intros; apply H; by right). done.
Qed.

End SubsetFile.

(** X6: a membership file written one [<label>/<filename>] per line,
    without a newline after the last line, is read back as exactly the
    set of its file names, provided labels and names contain neither
    separator. *)
Theorem load_subset_subset_file (files : list (string * string)) :
  files ≠ [] →
  Forall (λ e, Py.contains slash e.1 = false ∧ Py.contains newline e.1 = false ∧
               Py.contains slash e.2 = false ∧ Py.contains newline e.2 = false)
         files →
  _load_subset (subset_file files) = OK (list_to_set files.*2).
Proof.
  intros Hne Hall. unfold _load_subset, subset_file.
  rewrite split_join.
  - rewrite (traverse_fmap_OK _ _ snd); [done|].
    intros [l n] Hin. rewrite Forall_forall in Hall.
    destruct (Hall _ Hin) as (Hl & _ & Hn & _). simpl in *.
    rewrite split_app_sep by done. by rewrite split_without_sep.
  - by destruct files.
  - apply Forall_fmap. eapply Forall_impl; [exact Hall|].
    intros [l n] (_ & Hl & _ & Hn). simpl in *.
    change (String slash n) with (String slash "" +:+ n).
    rewrite !contains_app, Hl, Hn. reflexivity.
Qed.

Lemma load_subset_subset_file_witness :
  [("yes", "abc123.wav"); ("no", "def456.wav")] ≠ [] ∧
  Forall (λ e, Py.contains slash e.1 = false ∧ Py.contains newline e.1 = false ∧
               Py.contains slash e.2 = false ∧ Py.contains newline e.2 = false)
         [("yes", "abc123.wav"); ("no", "def456.wav")] ∧
  _load_subset (subset_file [("yes", "abc123.wav"); ("no", "def456.wav")])
    = OK (list_to_set [("yes", "abc123.wav"); ("no", "def456.wav")].*2).
Proof.
  assert ([("yes", "abc123.wav"); ("no", "def456.wav")] ≠ []) as Hne by done.
  assert (Forall (λ e, Py.contains slash e.1 = false ∧
                       Py.contains newline e.1 = false ∧
                       Py.contains slash e.2 = false ∧
                       Py.contains newline e.2 = false)
                 [("yes", "abc123.wav"); ("no", "def456.wav")]) as Hall.
  { repeat constructor. }
  split; [exact Hne|]. split; [exact Hall|].
  exact (load_subset_subset_file _ Hne Hall).
Defined.

(** ** More on the label encoder *)

Lemma nlabels_of_legal (labels : list string) (c : string) :
  c ∈ nlabels_of labels → c ∈ legal_labels.
Proof.
  rewrite nlabels_of_fmap. intros (raw & -> & _)%list_elem_of_fmap.
  apply canonical_label_legal.
Qed.

(** X7: every canonical class the loop of [_transform_labels] produces is
    in the vocabulary and is never the noise folder's own name, and
    running the loop on its own output changes nothing. *)
Theorem nlabels_in_vocabulary (labels : list string) :
  (∀ c, c ∈ nlabels_of labels → c ∈ legal_labels ∧ c ≠ background_noise) ∧
  nlabels_of (nlabels_of labels) = nlabels_of labels.
Proof.
  split.
  - intros c Hlegal%nlabels_of_legal. split; [done|].
    intros Heq. rewrite Heq in Hlegal. by apply background_noise_not_legal.
  - rewrite !nlabels_of_fmap, <- list_fmap_compose.
    apply list_fmap_ext. intros _ raw _. simpl.
    apply canonical_label_fixed, canonical_label_legal.
Qed.

(** X8: within one view all label vectors have the same width, the number
    of distinct canonical classes among its labels, which lies between 1
    and 12. *)
Theorem label_vector_width (labels : list string) (row : list Z) :
  row ∈ _transform_labels labels →
  length row = length (dummies_columns (nlabels_of labels)) ∧
  (1 ≤ length row ≤ 12)%nat.
Proof.
  unfold _transform_labels, get_dummies.
  intros (v & -> & Hv)%list_elem_of_fmap.
  rewrite length_dummies_row. split; [done|]. split.
  - apply elem_of_dummies_columns in Hv.
    destruct (dummies_columns _); [by apply elem_of_nil in Hv|simpl; lia].
  - change 12%nat with (length legal_labels).
    apply submseteq_length, NoDup_submseteq; [apply NoDup_dummies_columns|].
    intros c Hc. apply (proj1 (elem_of_dummies_columns _ _)) in Hc.
    by eapply nlabels_of_legal.
Qed.

Lemma label_vector_width_witness :
  [0; 1; 0] ∈ _transform_labels scenario1_labels ∧
  length [0; 1; 0] = length (dummies_columns (nlabels_of scenario1_labels)) ∧
  (1 ≤ length [0; 1; 0] ≤ 12)%nat.
Proof.
  assert ([0; 1; 0] ∈ _transform_labels scenario1_labels) as H by by_compute.
  split; [exact H|]. exact (label_vector_width scenario1_labels [0; 1; 0] H).
Defined.

(** *** Decoding with [np.argmax] *)

Lemma indicator_cases (v c : string) :
  (c = v ∧ indicator v c = 1) ∨ (c ≠ v ∧ indicator v c = 0).
Proof. unfold indicator. case_decide; auto. Qed.

Lemma argmax_from_one (best_i i : nat) (v : string) (columns : list string) :
  argmax_from 1 best_i i (dummies_row columns v) = best_i.
Proof.
  unfold dummies_row. revert i.
  induction columns as [|c columns IH]; intros i; [done|].
  rewrite fmap_cons. cbn [argmax_from].
  destruct (indicator_cases v c) as [[_ ->]|[_ ->]]; apply IH.
Qed.

Lemma argmax_from_zero (best_i i : nat) (v : string) (columns : list string) :
  v ∈ columns →
  ∃ k, columns !! k = Some v ∧
       argmax_from 0 best_i i (dummies_row columns v) = (i + k)%nat.
Proof.
  revert i. induction columns as [|c columns IH]; intros i Hv;
    [by apply elem_of_nil in Hv|].
  unfold dummies_row. rewrite fmap_cons. cbn [argmax_from].
  fold (dummies_row columns v).
  destruct (indicator_cases v c) as [[-> ->]|[Hne ->]].
  - exists 0%nat. split; [done|].
    change (0 <? 1) with true. cbv iota. rewrite argmax_from_one. lia.
  - apply elem_of_cons in Hv as [->|Hv]; [done|].
    destruct (IH (S i) Hv) as (k & Hk & Harg).
    exists (S k). split; [done|].
    change (0 <? 0) with false. cbv iota. rewrite Harg. lia.
Qed.

Lemma argmax_dummies_row (v : string) (columns : list string) :
  v ∈ columns →
  ∃ k, columns !! k = Some v ∧ np_argmax (dummies_row columns v) = OK k.
Proof.
  destruct columns as [|c columns]; [by intros ?%elem_of_nil|]. intros Hv.
  unfold np_argmax, dummies_row. rewrite fmap_cons.
  fold (dummies_row columns v).
  destruct (indicator_cases v c) as [[-> ->]|[Hne ->]].
  - exists 0%nat. split; [done|]. by rewrite argmax_from_one.
  - apply elem_of_cons in Hv as [->|Hv]; [done|].
    destruct (argmax_from_zero 0 1 v columns Hv) as (k & Hk & Harg).
    exists (S k). split; [done|]. by rewrite Harg.
Qed.

(** X9: [np.argmax], as [evaluate] applies it to a target row, decodes
    the label vector of entry [i]: it returns the position, among the
    view's sorted distinct classes, of the entry's canonical class. *)
Theorem argmax_decodes_label (labels : list string) (i : nat) (raw : string) :
  labels !! i = Some raw →
  ∃ row k,
    _transform_labels labels !! i = Some row ∧
    np_argmax row = OK k ∧
    dummies_columns (nlabels_of labels) !! k = Some (canonical_label raw).
Proof.
  intros Hi.
  destruct (argmax_dummies_row (canonical_label raw)
              (dummies_columns (nlabels_of labels))) as (k & Hk & Harg).
  { apply elem_of_dummies_columns. rewrite nlabels_of_fmap.
    apply list_elem_of_fmap_2. by eapply list_elem_of_lookup_2. }
  eexists _, k. by rewrite (transform_labels_lookup _ _ _ Hi).
Qed.

Lemma argmax_decodes_label_witness :
  scenario1_labels !! 4%nat = Some "banana" ∧
  ∃ row k,
    _transform_labels scenario1_labels !! 4%nat = Some row ∧
    np_argmax row = OK k ∧
    dummies_columns (nlabels_of scenario1_labels) !! k
      = Some (canonical_label "banana").
Proof.
  split; [reflexivity|].
  apply (argmax_decodes_label scenario1_labels 4 "banana"). reflexivity.
Defined.

Lemma dummies_row_inj (columns : list string) (v w : string) :
  v ∈ columns → dummies_row columns v = dummies_row columns w → v = w.
Proof.
  intros (k & Hk)%list_elem_of_lookup_1 Heq.
  pose proof (dummies_row_lookup columns v k v Hk) as Hv.
  pose proof (dummies_row_lookup columns w k v Hk) as Hw.
  rewrite Heq, Hw in Hv. rewrite (decide_True (P:=v = v)) in Hv by done.
  destruct (decide (v = w)); [done|discriminate Hv].
Qed.

(** X10: within one view two entries have the same label vector exactly
    when their folders map to the same canonical class. *)
Theorem label_vectors_separate_classes
    (labels : list string) (i j : nat) (raw1 raw2 : string) :
  labels !! i = Some raw1 →
  labels !! j = Some raw2 →
  _transform_labels labels !! i = _transform_labels labels !! j ↔
  canonical_label raw1 = canonical_label raw2.
Proof.
  intros Hi Hj.
  rewrite (transform_labels_lookup _ _ _ Hi), (transform_labels_lookup _ _ _ Hj).
  split; [|by intros ->].
  intros [= Heq]. eapply dummies_row_inj; [|exact Heq].
  apply elem_of_dummies_columns. rewrite nlabels_of_fmap.
  apply list_elem_of_fmap_2. by eapply list_elem_of_lookup_2.
Qed.

Lemma label_vectors_separate_classes_witness :
  scenario1_labels !! 4%nat = Some "banana" ∧
  scenario1_labels !! 3%nat = Some "_background_noise_" ∧
  (_transform_labels scenario1_labels !! 4%nat
     = _transform_labels scenario1_labels !! 3%nat ↔
   canonical_label "banana" = canonical_label "_background_noise_").
Proof.
  split; [reflexivity|]. split; [reflexivity|].
  apply (label_vectors_separate_classes scenario1_labels 4 3
           "banana" "_background_noise_"); reflexivity.
Defined.

Lemma dummies_columns_same_set (values1 values2 : list string) :
  (∀ c, c ∈ values1 ↔ c ∈ values2) →
  dummies_columns values1 = dummies_columns values2.
Proof.
  intros Hset. apply (Sorted_unique String.le);
    [apply Sorted_dummies_columns..|].
  apply NoDup_Permutation; [apply NoDup_dummies_columns..|].
  intros c. by rewrite !elem_of_dummies_columns.
Qed.

(** X11: the encoding depends on a corpus only through its set of
    canonical classes: two label sequences with the same set of classes,
    in any order and multiplicity, give every folder name of the same
    class the same vector. *)
Theorem same_classes_same_encoding
    (labels1 labels2 : list string) (i j : nat) (raw1 raw2 : string) :
  (∀ c, c ∈ nlabels_of labels1 ↔ c ∈ nlabels_of labels2) →
  canonical_label raw1 = canonical_label raw2 →
  labels1 !! i = Some raw1 →
  labels2 !! j = Some raw2 →
  _transform_labels labels1 !! i = _transform_labels labels2 !! j.
Proof.
  intros Hset Hc Hi Hj.
  rewrite (transform_labels_lookup _ _ _ Hi), (transform_labels_lookup _ _ _ Hj).
  by rewrite (dummies_columns_same_set _ _ Hset), Hc.
Qed.

Lemma same_classes_same_encoding_witness :
  (∀ c, c ∈ nlabels_of ["yes"; "banana"; "yes"] ↔
        c ∈ nlabels_of ["cherry"; "yes"]) ∧
  canonical_label "banana" = canonical_label "cherry" ∧
  ["yes"; "banana"; "yes"] !! 1%nat = Some "banana" ∧
  ["cherry"; "yes"] !! 0%nat = Some "cherry" ∧
  _transform_labels ["yes"; "banana"; "yes"] !! 1%nat
    = _transform_labels ["cherry"; "yes"] !! 0%nat.
Proof.
  assert (∀ c, c ∈ nlabels_of ["yes"; "banana"; "yes"] ↔
               c ∈ nlabels_of ["cherry"; "yes"]) as Hset.
  { intros c. vm_compute nlabels_of. rewrite !elem_of_cons. tauto. }
  split; [exact Hset|]. split; [reflexivity|].
  split; [reflexivity|]. split; [reflexivity|].
  apply (same_classes_same_encoding ["yes"; "banana"; "yes"] ["cherry"; "yes"]
           1 0 "banana" "cherry" Hset); reflexivity.
Defined.

(** ** More on the transform chain *)

(** X12: [RandomChop] applied to its own output returns it unchanged and
    draws no random number. *)
Theorem RandomChop_idempotent {RandomState : Type}
    (random_raw : RandomState → nat * RandomState)
    (T : nat) (sample out : Sample) (st st' : RandomState) :
  RandomChop_call random_raw T sample st = OK (out, st') →
  ∀ st'', RandomChop_call random_raw T out st'' = OK (out, st'').
Proof.
  intros Hcall st''.
  destruct (RandomChop_call_length random_raw T sample st)
    as (out0 & st0 & Hcall0 & _ & _ & Hlen).
  rewrite Hcall in Hcall0. injection Hcall0 as <- <-.
  rewrite RandomChop_exact by done. by destruct out.
Qed.

Lemma RandomChop_idempotent_witness :
  RandomChop_call counting_raw 3
    {| sample_rate := 16000; samples := [1; 2; 3; 4; 5; 6]; label := [1] |}
    1%nat
  = OK ({| sample_rate := 16000; samples := [2; 3; 4]; label := [1] |}, 2%nat) ∧
  ∀ st'', RandomChop_call counting_raw 3
            {| sample_rate := 16000; samples := [2; 3; 4]; label := [1] |} st''
          = OK ({| sample_rate := 16000; samples := [2; 3; 4]; label := [1] |},
                st'').
Proof.
  split; [reflexivity|].
  apply (RandomChop_idempotent counting_raw 3
           {| sample_rate := 16000; samples := [1; 2; 3; 4; 5; 6];
              label := [1] |} _ 1%nat 2%nat).
  reflexivity.
Defined.

Lemma Specgram_call_OK (self_sample_rate : Z) (sample : Sample)
    (out : SpecSample) :
  Specgram_call self_sample_rate sample = OK out →
  spec_label out = label sample ∧
  ∃ time_bins freq_bins, spec_shape out = [1; time_bins; freq_bins].
Proof.
  unfold Specgram_call.
  intros (num & _ & (resampled & _ & (specgram & _ & H)%bind_OK)%bind_OK)%bind_OK.
  apply bind_OK in H as (d0 & _ & (d1 & _ & [= <-])%bind_OK).
  simpl. eauto.
Qed.

Lemma compose_transform_OK {RandomState : Type}
    (random_raw : RandomState → nat * RandomState)
    (T : nat) (spec_rate : Z) (sample : Sample) (out : SpecSample)
    (st st' : RandomState) :
  compose_transform random_raw T spec_rate sample st = OK (out, st') →
  spec_label out = label sample ∧
  ∃ time_bins freq_bins, spec_shape out = [1; time_bins; freq_bins].
Proof.
  unfold compose_transform.
  destruct (RandomChop_call_length random_raw T sample st)
    as (chopped & st0 & -> & _ & Hlabel & _). simpl.
  destruct (Specgram_call spec_rate chopped) as [spec|] eqn:Hspec; [|done].
  simpl. intros [= <- <-].
  apply Specgram_call_OK in Hspec as [Hl Hshape]. simpl.
  by rewrite Hl, Hlabel.
Qed.

(** X14: whatever a view built with the chain [RandomChop], [Specgram],
    [ToTensor] returns for an index is a transformed sample that carries
    the one-hot label vector stored for that index, untouched by the
    chain, and a three-dimensional shape with a leading 1. *)
Theorem getitem_transformed_label {RandomState : Type}
    (random_raw : RandomState → nat * RandomState)
    (T : nat) (spec_rate : Z) (dir : Directory) (subset_path : option string)
    (self : SoundDataset RandomState SpecSample) (idx : Z)
    (st st' : RandomState) (item : Item SpecSample) :
  __init__ dir subset_path (Some (compose_transform random_raw T spec_rate))
    = OK self →
  __getitem__ self idx st = OK (item, st') →
  ∃ out time_bins freq_bins,
    item = Transformed out ∧
    Py.getitem (_transformed_labels self) idx = OK (spec_label out) ∧
    one_hot (spec_label out) ∧
    spec_shape out = [1; time_bins; freq_bins].
Proof.
  intros Hinit. pose proof (init_OK _ _ _ _ Hinit) as (_ & _ & _ & Ht & _ & Htr).
  unfold __getitem__. rewrite Htr.
  intros (lbl & _ & (snd & _ & ([rate smp] & _ & H)%bind_OK)%bind_OK)%bind_OK.
  apply bind_OK in H as (row & Hrow & H).
  apply bind_OK in H as ([out st0] & Hcomp & [= <- <-]).
  apply compose_transform_OK in Hcomp as (Hl & tb & fb & Hshape).
  simpl in Hl. exists out, tb, fb. rewrite Hl. split_and!; [done|done| |done].
  apply getitem_OK_elem_of in Hrow. rewrite Ht in Hrow.
  by eapply transform_labels_rows_one_hot.
Qed.

Lemma getitem_transformed_label_witness :
  ∃ self : SoundDataset nat SpecSample,
    __init__ scenario3_directory None
      (Some (compose_transform counting_raw 400 8000)) = OK self ∧
    __getitem__ self 1 0%nat
      = OK (Transformed {| spec_shape := [1; 1; 81]; spec_label := [1] |},
            0%nat) ∧
    ∃ out time_bins freq_bins,
      Transformed {| spec_shape := [1; 1; 81]; spec_label := [1] |}
        = Transformed out ∧
      Py.getitem (_transformed_labels self) 1 = OK (spec_label out) ∧
      one_hot (spec_label out) ∧
      spec_shape out = [1; time_bins; freq_bins].
Proof.
  eexists. split; [reflexivity|].
  assert (__getitem__
            {| directory := scenario3_directory;
               transform := Some (compose_transform counting_raw 400 8000);
               _subset := None;
               _labels := ["yes"; "yes"];
               _sounds := ["abc123.wav"; "def456.wav"];
               _transformed_labels := [[1]; [1]] |} 1 0%nat
          = OK (Transformed {| spec_shape := [1; 1; 81]; spec_label := [1] |},
                0%nat)) as Hget by (vm_compute; reflexivity).
  split; [exact Hget|].
  eapply (getitem_transformed_label counting_raw 400 8000
            scenario3_directory None _ 1 0%nat 0%nat _ eq_refl Hget).
Defined.

Lemma ms_to_samples_defaults :
  ms_to_samples 20 8000 = OK 160 ∧ ms_to_samples 10 8000 = OK 80.
Proof. split; vm_compute; reflexivity. Qed.

(** X15: at the default target rate of 8000 Hz, when the resampled
    signal has [num >= 160] samples (one 20 ms window), [Specgram]
    returns shape [(1, (num - 80) // 80, 81)]: 81 frequency bins whatever
    the input, and one time bin per 10 ms hop that fits. *)
Theorem Specgram_default_shape (sample : Sample) (num : Z) :
  Specgram_num 8000 (sample_rate sample) (Z.of_nat (length (samples sample)))
    = OK num →
  160 ≤ num →
  Specgram_call 8000 sample =
    OK {| spec_shape := [1; (num - 80) / 80; 81];
          spec_label := label sample |}.
Proof.
  intros Hnum Hlen. unfold Specgram_call. rewrite Hnum. simpl.
  unfold resample_len. destruct (Z.ltb_spec num 0); [lia|]. simpl.
  unfold _log_specgram_shape.
  destruct ms_to_samples_defaults as [-> ->]. simpl.
  unfold spectrogram_shape.
  destruct (Z.eqb_spec num 0); [lia|].
  destruct (Z.ltb_spec num 160); [lia|]. reflexivity.
Qed.

Lemma Specgram_default_shape_witness :
  Specgram_num 8000
    (sample_rate {| sample_rate := 16000; samples := replicate 400 0;
                    label := [1] |})
    (Z.of_nat (length (samples {| sample_rate := 16000;
                                  samples := replicate 400 0;
                                  label := [1] |}))) = OK 200 ∧
  160 ≤ 200 ∧
  Specgram_call 8000
    {| sample_rate := 16000; samples := replicate 400 0; label := [1] |}
  = OK {| spec_shape := [1; (200 - 80) / 80; 81]; spec_label := [1] |}.
Proof.
  assert (Specgram_num 8000
    (sample_rate {| sample_rate := 16000; samples := replicate 400 0;
                    label := [1] |})
    (Z.of_nat (length (samples {| sample_rate := 16000;
                                  samples := replicate 400 0;
                                  label := [1] |}))) = OK 200) as Hnum
    by (vm_compute; reflexivity).
  assert (160 ≤ 200) as Hlen by lia.
  split; [exact Hnum|]. split; [exact Hlen|].
  exact (Specgram_default_shape
           {| sample_rate := 16000; samples := replicate 400 0; label := [1] |}
           200 Hnum Hlen).
Defined.

(** X16: a file whose header announces a sample rate of zero makes the
    whole chain raise [ZeroDivisionError], whatever its audio, the chop
    length, the target rate and the generator state. *)
Theorem compose_transform_zero_rate {RandomState : Type}
    (random_raw : RandomState → nat * RandomState)
    (T : nat) (spec_rate : Z) (audio lbl : list Z) (st : RandomState) :
  compose_transform random_raw T spec_rate
    {| sample_rate := 0; samples := audio; label := lbl |} st
  = Err ZeroDivisionError.
Proof.
  unfold compose_transform.
  destruct (RandomChop_call_length random_raw T
              {| sample_rate := 0; samples := audio; label := lbl |} st)
    as (chopped & st0 & -> & Hrate & _ & _). simpl in *.
  unfold Specgram_call. by rewrite Hrate, Specgram_num_zero_rate.
Qed.

(** ** The shapes through the network *)

Lemma pool2d_spec (k n c h w : Z) :
  0 < k →
  Torch.pool2d k (n, c, h, w) =
    if decide (k ≤ h ∧ k ≤ w) then Some (n, c, h / k, w / k) else None.
Proof.
  intros Hk. unfold Torch.pool2d.
  assert (∀ x, (x - k) / k + 1 = x / k) as Hdiv.
  { intros x. replace (x - k) with (x + (-1) * k) by lia.
    rewrite Z.div_add by lia. lia. }
  rewrite !Hdiv.
  assert (∀ x, 1 ≤ x / k ↔ k ≤ x) as Hge.
  { intros x. split; intros H.
    - destruct (decide (k ≤ x)); [done|].
      assert (x / k < 1); [|lia]. apply Z.div_lt_upper_bound; lia.
    - apply Z.div_le_lower_bound; lia. }
  case_decide as Hc.
  - destruct Hc as [?%Hge ?%Hge].
    destruct (Z.leb_spec 1 (h / k)); [|lia].
    destruct (Z.leb_spec 1 (w / k)); [|lia]. done.
  - destruct (Z.leb_spec 1 (h / k)) as [?%Hge|]; [|done].
    destruct (Z.leb_spec 1 (w / k)) as [?%Hge|]; [|done]. lia.
Qed.

Lemma conv2d_spec (cin cout k p n h w : Z) :
  Torch.conv2d cin cout k p (n, cin, h, w) =
    if decide (k ≤ h + 2 * p ∧ k ≤ w + 2 * p)
    then Some (n, cout, h + 2 * p - k + 1, w + 2 * p - k + 1) else None.
Proof.
  unfold Torch.conv2d. rewrite Z.eqb_refl. simpl.
  destruct (Z.leb_spec k (h + 2 * p)), (Z.leb_spec k (w + 2 * p));
    simpl; case_decide; (done || lia).
Qed.

Lemma batch_norm2d_spec (training : bool) (c n h w : Z) :
  Torch.batch_norm2d training c (n, c, h, w) =
    if decide (training = true ∧ n * h * w = 1) then None
    else Some (n, c, h, w).
Proof.
  unfold Torch.batch_norm2d. rewrite Z.eqb_refl. simpl.
  destruct training; simpl.
  - destruct (Z.eqb_spec (n * h * w) 1); case_decide; (done || tauto).
  - try case_decide; (done || (exfalso; naive_solver)).
Qed.


Lemma obind_Some {A B} (f : A → option B) (x : A) : Some x ≫= f = f x.
Proof. reflexivity. Qed.
Lemma obind_None {A B} (f : A → option B) : None ≫= f = None.
Proof. reflexivity. Qed.
Ltac obind := cbv iota; rewrite ?obind_Some, ?obind_None.

Lemma cnn1_spec (training : bool) (n h w : Z) :
  1 ≤ n →
  ConvCNN_forward training 1 32 7 2 4 false (n, 1, h, w) =
    if decide (6 ≤ h ∧ 6 ≤ w)
    then Some (n, 32, (h - 2) / 4, (w - 2) / 4) else None.
Proof.
  intros Hn. unfold ConvCNN_forward. rewrite conv2d_spec.
  destruct (decide (7 ≤ h + 2 * 2 ∧ 7 ≤ w + 2 * 2)) as [Hc|Hc]; obind.
  2: { rewrite decide_False by lia. done. }
  rewrite batch_norm2d_spec.
  destruct (decide (training = true ∧ _)) as [[_ Hb]|Hb]; obind.
  { rewrite decide_False; [done|]. nia. }
  rewrite pool2d_spec by lia.
  destruct (decide (4 ≤ h + 2 * 2 - 7 + 1 ∧ 4 ≤ w + 2 * 2 - 7 + 1)); obind.
  - rewrite decide_True by lia.
    replace (h + 2 * 2 - 7 + 1) with (h - 2) by lia.
    by replace (w + 2 * 2 - 7 + 1) with (w - 2) by lia.
  - rewrite decide_False by lia. done.
Qed.

Lemma cnn_avg_spec (training : bool) (n h w : Z) :
  1 ≤ n →
  ConvCNN_forward training 32 32 5 2 2 true (n, 32, h, w) =
    if decide (4 ≤ h ∧ 4 ≤ w)
    then Some (n, 32, h / 4, w / 4) else None.
Proof.
  intros Hn. unfold ConvCNN_forward. rewrite conv2d_spec.
  destruct (decide (5 ≤ h + 2 * 2 ∧ 5 ≤ w + 2 * 2)) as [Hc|Hc]; obind.
  2: { rewrite decide_False by lia. done. }
  replace (h + 2 * 2 - 5 + 1) with h by lia.
  replace (w + 2 * 2 - 5 + 1) with w by lia.
  rewrite batch_norm2d_spec.
  destruct (decide (training = true ∧ _)) as [[_ Hb]|Hb]; obind.
  { rewrite decide_False; [done|]. nia. }
  rewrite pool2d_spec by lia.
  destruct (decide (2 ≤ h ∧ 2 ≤ w)); obind.
  2: { rewrite decide_False by lia. done. }
  rewrite pool2d_spec by lia.
  assert (∀ x, x / 2 / 2 = x / 4) as Hdd
    by (intros x; rewrite Z.div_div by lia; done).
  assert (∀ x, 2 ≤ x / 2 ↔ 4 ≤ x) as Hge.
  { intros x. Z.to_euclidean_division_equations. lia. }
  destruct (decide (2 ≤ h / 2 ∧ 2 ≤ w / 2)) as [[?%Hge ?%Hge]|Hp]; obind.
  - rewrite decide_True by done. by rewrite !Hdd.
  - rewrite decide_False; [done|]. intros [?%Hge ?%Hge]. tauto.
Qed.

Lemma res1_spec (training : bool) (n h w : Z) :
  1 ≤ h → 1 ≤ w →
  ConvRes_forward training 32 64 (n, 32, h, w) =
    if decide (training = true ∧ n * h * w = 1) then None
    else Some (n, 64, h + 3, w + 3).
Proof.
  intros Hh Hw. unfold ConvRes_forward. rewrite batch_norm2d_spec.
  case_decide; obind; [done|].
  rewrite conv2d_spec. rewrite decide_True by lia.
  replace (h + 2 * 2 - 2 + 1) with (h + 3) by lia.
  by replace (w + 2 * 2 - 2 + 1) with (w + 3) by lia.
Qed.

Lemma features_spec (training : bool) (n h w : Z) :
  1 ≤ n →
  Net_features training (n, 1, h, w) =
    if decide (66 ≤ h ∧ 66 ≤ w ∧
               ¬ (training = true ∧ n = 1 ∧ h ≤ 129 ∧ w ≤ 129))
    then Some (n, 64, (h - 2) / 64 + 3, (w - 2) / 64 + 3)
    else None.
Proof.
  intros Hn. unfold Net_features. rewrite cnn1_spec by done.
  destruct (decide (6 ≤ h ∧ 6 ≤ w)); obind.
  2: { rewrite decide_False by lia. done. }
  rewrite cnn_avg_spec by done.
  destruct (decide (4 ≤ (h - 2) / 4 ∧ 4 ≤ (w - 2) / 4)) as [H1|H1]; obind.
  2: { rewrite decide_False; [done|].
       intros (? & ? & _). apply H1.
       Z.to_euclidean_division_equations. lia. }
  rewrite cnn_avg_spec by done.
  assert (∀ x, x / 4 / 4 / 4 = x / 64) as Hd64
    by (intros x; rewrite !Z.div_div by lia; done).
  assert (∀ x, x / 4 / 4 = x / 16) as Hd16
    by (intros x; rewrite Z.div_div by lia; done).
  rewrite !Hd64, !Hd16.
  destruct (decide (4 ≤ (h - 2) / 16 ∧ 4 ≤ (w - 2) / 16)) as [H2|H2]; obind.
  2: { rewrite decide_False; [done|].
       intros (? & ? & _). apply H2.
       Z.to_euclidean_division_equations. lia. }
  rewrite res1_spec by (Z.to_euclidean_division_equations; lia).
  assert (66 ≤ h ∧ 66 ≤ w) as [Hh Hw]
    by (Z.to_euclidean_division_equations; lia).
  assert (∀ x, 66 ≤ x → ((x - 2) / 64 = 1 ↔ x ≤ 129)) as Hone.
  { intros x Hx. Z.to_euclidean_division_equations. lia. }
  assert (∀ x, 66 ≤ x → 1 ≤ (x - 2) / 64) as Hpos.
  { intros x Hx. Z.to_euclidean_division_equations. lia. }
  pose proof (Hpos h Hh). pose proof (Hpos w Hw).
  case_decide as Hb.
  - rewrite decide_False; [done|]. intros (_ & _ & Hneg). apply Hneg.
    destruct Hb as [-> Hb].
    assert (n = 1 ∧ (h - 2) / 64 = 1 ∧ (w - 2) / 64 = 1) as (-> & ?%Hone & ?%Hone);
      [nia|done..|]. done.
  - rewrite decide_True; [done|]. split_and!; [done..|].
    intros (-> & -> & ?%Hone & ?%Hone); [|done..]. apply Hb. split; [done|]. nia.
Qed.

(** What [Net.forward] returns for a non-empty batch. *)
Lemma Net_forward_shape (training : bool) (n h w : Z) :
  1 ≤ n →
  Net_forward training (n, 1, h, w) =
    if decide (66 ≤ h ≤ 129 ∧ 66 ≤ w ≤ 129 ∧ (training = true → 2 ≤ n))
    then Some (n, 12) else None.
Proof.
  intros Hn. unfold Net_forward. rewrite features_spec by done.
  destruct (decide (66 ≤ h ∧ 66 ≤ w ∧ _)) as [(Hh & Hw & Hb)|Hf]; obind.
  2: { rewrite decide_False; [done|]. intros (? & ? & Ht). apply Hf.
       split_and!; [lia..|]. intros (-> & -> & _). specialize (Ht eq_refl). lia. }
  unfold Torch.flatten. destruct (Z.eqb_spec n 0); [lia|]. obind.
  unfold Torch.linear.
  assert (∀ x, 66 ≤ x → 1 ≤ (x - 2) / 64 ∧ ((x - 2) / 64 = 1 ↔ x ≤ 129))
    as Hone.
  { intros x Hx. Z.to_euclidean_division_equations. lia. }
  destruct (Hone h Hh) as [Hph Hh1], (Hone w Hw) as [Hpw Hw1].
  destruct (Z.eqb_spec (64 * ((h - 2) / 64 + 3) * ((w - 2) / 64 + 3)) 1024)
    as [Heq|Hne].
  - assert ((h - 2) / 64 = 1 ∧ (w - 2) / 64 = 1) as [?%Hh1 ?%Hw1] by nia.
    rewrite decide_True; [done|]. split_and!; [lia..|].
    intros ->. destruct (decide (n = 1)) as [->|]; [|lia].
    destruct Hb. done.
  - rewrite decide_False; [done|]. intros ([_ ?%Hh1] & [_ ?%Hw1] & _).
    apply Hne. nia.
Qed.

(** X17: for a non-empty batch of [n] one-channel images of [h] by [w],
    [Net.forward] returns [n] rows of 12 logits exactly when both [h] and
    [w] lie between 66 and 129 and, in training mode, the batch holds at
    least two samples; otherwise a layer raises.  Only then does the
    flattened feature map have the 1024 entries [nn.Linear(1024, 12)]
    expects, and batch normalisation cannot normalise the single
    one-by-one map of a batch of one. *)
Theorem Net_forward_accepts (training : bool) (n h w : Z) :
  1 ≤ n →
  Net_forward training (n, 1, h, w) = Some (n, 12) ↔
  66 ≤ h ≤ 129 ∧ 66 ≤ w ≤ 129 ∧ (training = true → 2 ≤ n).
Proof.
  intros Hn. rewrite Net_forward_shape by done.
  case_decide; [done|]. split; [done|tauto].
Qed.

Lemma Net_forward_accepts_witness :
  1 ≤ 32 ∧
  (Net_forward true (32, 1, 99, 81) = Some (32, 12) ↔
   66 ≤ 99 ≤ 129 ∧ 66 ≤ 81 ≤ 129 ∧ (true = true → 2 ≤ 32)).
Proof.
  assert (1 ≤ 32) as Hn by lia.
  split; [exact Hn|]. exact (Net_forward_accepts true 32 99 81 Hn).
Defined.


(** ** From a file to the network *)

Lemma result_bind_OK {A B} (f : A → result B) (x : A) : OK x ≫= f = f x.
Proof. reflexivity. Qed.

Lemma log_specgram_shape_8000 (num : Z) :
  160 ≤ num →
  _log_specgram_shape num 8000 20 10 = OK [(num - 80) / 80; 81].
Proof.
  intros Hlen. unfold _log_specgram_shape.
  destruct ms_to_samples_defaults as [-> ->]. simpl.
  unfold spectrogram_shape.
  destruct (Z.eqb_spec num 0); [lia|].
  destruct (Z.ltb_spec num 160); [lia|]. reflexivity.
Qed.

Lemma pipeline_shape_default_rates {RandomState : Type}
    (random_raw : RandomState → nat * RandomState)
    (r : Z) (audio : list Z) (st : RandomState) :
  1 ≤ r ≤ 48000 →
  pipeline_shape random_raw (Z.to_nat 16000) 8000 r audio st =
    OK [1; (8000 * 16000 / r - 80) / 80; 81].
Proof.
  intros Hr. rewrite pipeline_shape_stage_b.
  unfold Specgram_shape, Specgram_call.
  cbn [sample_rate samples label]. rewrite length_replicate, Z2Nat.id by lia.
  rewrite Specgram_num_default_rates by done.
  assert (160 ≤ 8000 * 16000 / r) as Hnum
    by (apply Z.div_le_lower_bound; lia).
  cbn [mbind result_bind]. unfold resample_len.
  destruct (Z.ltb_spec (8000 * 16000 / r) 0); [lia|].
  rewrite result_bind_OK, log_specgram_shape_8000 by done. reflexivity.
Qed.



(** ** The loss history of [train] *)

Section TrainProperties.

Context {Loss : Type} (mean : list Loss → Loss).

(** The loop cuts what is left of the epoch into runs: every run is
    closed by a multiple of [log_steps] or by the last batch. *)
Lemma train_loop_chunks (log_steps last_batch : Z) (batches : list Loss) :
  0 < log_steps →
  ∀ (batch_idx : Z) (loss_history loss_batch_history : list Loss),
    batch_idx + Z.of_nat (length batches) = last_batch + 1 →
    (batches = [] → loss_batch_history = []) →
    (batches ≠ [] →
     Z.of_nat (length loss_batch_history) = (batch_idx - 1) mod log_steps) →
    ∃ chunks,
      train_loop mean log_steps last_batch batch_idx batches
        loss_history loss_batch_history
        = loss_history ++ (mean <$> chunks) ∧
      concat chunks = loss_batch_history ++ batches ∧
      Forall (λ c, c ≠ [] ∧ Z.of_nat (length c) ≤ log_steps) chunks.
Proof.
  intros Hsteps.
  induction batches as [|loss rest IH]; intros idx hist cur Hidx Hnil Hcur.
  - exists []. rewrite Hnil by done. simpl. by rewrite app_nil_r.
  - specialize (Hcur ltac:(done)). cbn [train_loop].
    assert (Z.of_nat (length (cur ++ [loss])) ≤ log_steps) as Hbound.
    { rewrite length_app. simpl.
      pose proof (Z.mod_pos_bound (idx - 1) log_steps Hsteps). lia. }
    rewrite length_cons, Nat2Z.inj_succ in Hidx.
    destruct (Z.eqb_spec (idx mod log_steps) 0) as [Hmod|Hmod];
      [|destruct (Z.eqb_spec idx last_batch) as [Hlast|Hlast]]; simpl.
    + destruct (IH (idx + 1) (hist ++ [mean (cur ++ [loss])]) [])
        as (chunks & -> & Hcat & Hall); [lia|done| |].
      { intros _. simpl. by replace (idx + 1 - 1) with idx by lia. }
      exists ((cur ++ [loss]) :: chunks). split_and!.
      * by rewrite fmap_cons, <- app_assoc.
      * simpl. rewrite Hcat. by rewrite <- app_assoc.
      * constructor; [|done]. split; [by destruct cur|done].
    + assert (rest = []) as ->
        by (destruct rest; [done|rewrite length_cons in Hidx; lia]).
      exists [cur ++ [loss]]. simpl. split_and!; [done|by rewrite app_nil_r|].
      constructor; [|done]. split; [by destruct cur|done].
    + destruct (IH (idx + 1) hist (cur ++ [loss]))
        as (chunks & -> & Hcat & Hall); [lia| |..].
      { intros ->. simpl in Hidx. lia. }
      { intros _. rewrite length_app, Nat2Z.inj_add, Hcur. simpl.
        replace (idx + 1 - 1) with idx by lia.
        pose proof (Z.mod_pos_bound (idx - 1) log_steps Hsteps) as Hrange.
        assert (idx mod log_steps = ((idx - 1) mod log_steps + 1) mod log_steps)
          as Hstep.
        { rewrite Z.add_mod_idemp_l by lia. f_equal. lia. }
        destruct (decide ((idx - 1) mod log_steps + 1 = log_steps)) as [Hfull|].
        - rewrite Hfull, Z.mod_same in Hstep by lia. done.
        - rewrite (Z.mod_small ((idx - 1) mod log_steps + 1)) in Hstep by lia.
          by rewrite Hstep. }
      exists chunks. split_and!; [done| |done].
      by rewrite Hcat, <- app_assoc.
Qed.

End TrainProperties.

(** X19: for a positive [log_steps], [train] cuts the epoch's batch
    losses, in order, into consecutive non-empty runs of at most
    [log_steps] batches and returns the mean of each run: every batch
    loss enters exactly one reported mean, the last run included even
    when it is short, and an empty loader gives an empty history. *)
Theorem train_history_chunks {Loss : Type} (mean : list Loss → Loss)
    (log_steps : Z) (batches : list Loss) :
  0 < log_steps →
  ∃ chunks,
    train mean log_steps batches = OK (mean <$> chunks) ∧
    concat chunks = batches ∧
    Forall (λ c, c ≠ [] ∧ Z.of_nat (length c) ≤ log_steps) chunks.
Proof.
  intros Hsteps. destruct batches as [|loss rest]; [by exists []|].
  unfold train. destruct (Z.eqb_spec log_steps 0); [lia|].
  destruct (train_loop_chunks mean log_steps
              (Z.of_nat (length (loss :: rest))) (loss :: rest) Hsteps 1 [] [])
    as (chunks & Hloop & Hcat & Hall); [lia|done| |].
  { intros _. simpl. by rewrite Z.mod_0_l by lia. }
  exists chunks. by rewrite Hloop.
Qed.

Lemma train_history_chunks_witness :
  0 < 2 ∧
  ∃ chunks,
    train (λ l, foldr Z.add 0 l / Z.of_nat (length l)) 2 [4; 6; 5; 9; 1]
      = OK ((λ l, foldr Z.add 0 l / Z.of_nat (length l)) <$> chunks) ∧
    concat chunks = [4; 6; 5; 9; 1] ∧
    Forall (λ c, c ≠ [] ∧ Z.of_nat (length c) ≤ 2) chunks.
Proof.
  assert (0 < 2) as Hsteps by lia.
  split; [exact Hsteps|].
  exact (train_history_chunks (λ l, foldr Z.add 0 l / Z.of_nat (length l))
           2 [4; 6; 5; 9; 1] Hsteps).
Defined.
